(** * Chunk-and-store pipeline and streamed-answer parsing

    A shallow embedding of the parts of the repository that carry logic of
    their own:

    - [20-vector-db-learnings/1-simple-chromadb/vectordb/chroma_add.py]
      ([load_text], [add_documents]),
    - [20-vector-db-learnings/1-simple-chromadb/vectordb/chroma_setup.py]
      ([get_collection]),
    - [15-1-llama-example/speech_to_text.py] ([query_ollama_stream]).

    [vectordb/chroma_query.py] has no embedding: its text is not in Python's
    grammar (a comma is missing between the keyword arguments [include] and
    [where] of the call to [collection.query], and between [distances] and
    [metadatas] in the call to [zip]), so importing it raises [SyntaxError]
    and [search] is never defined.

    Python values are modelled as the interpreter has them: a [str] is a
    sequence of Unicode code points, exceptions are an explicit outcome, and
    the state a function touches (files, the persisted vector store, the
    entropy behind [uuid.uuid4], the console) is threaded through a small
    state-and-exception monad. *)

From Stdlib Require Import String Ascii ZArith NArith List Lia.
From stdpp Require Import base option list gmap.

Local Open Scope N_scope.

(** ** Python runtime values *)

Module Py.

(** A Python [str]: a sequence of code points. *)
Abbreviation str := (list N).

(** A [bytes] object: a sequence of octets, each below 256. *)
Abbreviation bytes := (list N).

Definition escape (c : ascii) : option N :=
  match c with
  | "n"%char => Some 10
  | "t"%char => Some 9
  | "r"%char => Some 13
  | "\"%char => Some 92
  | _ => None
  end.

Definition hex_digit (c : ascii) : option N :=
  let n := N_of_ascii c in
  if (48 <=? n) && (n <=? 57) then Some (n - 48)
  else if (97 <=? n) && (n <=? 102) then Some (n - 87)
  else if (65 <=? n) && (n <=? 70) then Some (n - 55)
  else None.

(** [lit] reads an ASCII string literal the way Python reads it between
    quotes: backslash-n, -t, -r, a doubled backslash and backslash-x with
    two hex digits are escapes, every other character stands for itself. *)
Fixpoint lit (s : string) : str :=
  match s with
  | EmptyString => []
  | String c rest =>
      match c, rest with
      | "\"%char, String "x"%char (String h (String l rest')) =>
          match hex_digit h, hex_digit l with
          | Some a, Some b => (16 * a + b) :: lit rest'
          | _, _ => N_of_ascii c :: lit rest
          end
      | "\"%char, String d rest' =>
          match escape d with
          | Some n => n :: lit rest'
          | None => N_of_ascii c :: lit rest
          end
      | _, _ => N_of_ascii c :: lit rest
      end
  end.

Arguments lit : simpl never.

(** [str.isspace] on one code point (CPython's [_PyUnicode_IsWhitespace]). *)
Definition isspace (c : N) : bool :=
  ((9 <=? c) && (c <=? 13)) || ((28 <=? c) && (c <=? 32))
  || (c =? 133) || (c =? 160) || (c =? 5760)
  || ((8192 <=? c) && (c <=? 8202))
  || (c =? 8232) || (c =? 8233) || (c =? 8239) || (c =? 8287) || (c =? 12288).

(** [s.lstrip()], [s.rstrip()] and [s.strip()] with no argument. *)
Fixpoint lstrip (s : str) : str :=
  match s with
  | [] => []
  | c :: s' => if isspace c then lstrip s' else s
  end.

Definition rstrip (s : str) : str := reverse (lstrip (reverse s)).

Definition strip (s : str) : str := rstrip (lstrip s).

(** Truth value of a [str]: non-empty. *)
Definition nonempty (s : str) : bool :=
  match s with [] => false | _ :: _ => true end.

(** [s.startswith(sep)]. *)
Fixpoint startswith (sep s : str) : bool :=
  match sep, s with
  | [], _ => true
  | _ :: _, [] => false
  | a :: sep', b :: s' => (a =? b) && startswith sep' s'
  end.

(** [s.split(sep)] for a non-empty [sep] (both call sites pass a non-empty
    literal): the text is scanned from the left, each occurrence of [sep]
    closes the current piece and the scan resumes after it.  [skip] counts
    the characters of a matched separator still to pass over, [cur] holds
    the current piece reversed. *)
Fixpoint split_scan (sep s : str) (skip : nat) (cur : str) : list str :=
  match s with
  | [] => [reverse cur]
  | c :: s' =>
      match skip with
      | S k => split_scan sep s' k cur
      | O =>
          if startswith sep s
          then reverse cur :: split_scan sep s' (length sep - 1) []
          else split_scan sep s' 0 (c :: cur)
      end
  end.

Definition split (sep s : str) : list str := split_scan sep s 0 [].

(** [sep.join(pieces)]. *)
Fixpoint join (sep : str) (pieces : list str) : str :=
  match pieces with
  | [] => []
  | [p] => p
  | p :: rest => p ++ sep ++ join sep rest
  end.

(** *** Exceptions and the state monad *)

Inductive exn : Type :=
  | FileNotFoundError
  | UnicodeDecodeError
  | AttributeError
  | TypeError
  | HTTPError
  | EmptyInputError
  | CollectionNotFoundError
  | CollectionExistsError
  | LengthMismatchError
  | DimensionMismatchError
  | DuplicateIdError.

Inductive result (A : Type) : Type :=
  | Ok (a : A)
  | Raise (e : exn).
Arguments Ok {A} a.
Arguments Raise {A} e.

(** A computation over a state [S]: it ends with a value or an exception,
    and the state reached is kept in both cases. *)
Definition M (S A : Type) : Type := S -> result A * S.

Definition ret {S A} (a : A) : M S A := fun s => (Ok a, s).

Definition raise {S A} (e : exn) : M S A := fun s => (Raise e, s).

Definition bind {S A B} (m : M S A) (k : A -> M S B) : M S B :=
  fun s =>
    match m s with
    | (Ok a, s') => k a s'
    | (Raise e, s') => (Raise e, s')
    end.

(** [try: m  except: handler] with a bare [except]. *)
Definition try_except {S A} (m : M S A) (handler : M S A) : M S A :=
  fun s =>
    match m s with
    | (Ok a, s') => (Ok a, s')
    | (Raise _, s') => handler s'
    end.

End Py.

Import Py.

Notation "x <- m ;; k" := (bind m (fun x => k))
  (at level 100, m at next level, right associativity).

(** ** The vector store and the ingestion scripts *)

Module VectorDB.

(** Metadata values the scripts attach to an entry: a [str] or an [int]. *)
Inductive meta_value : Type :=
  | MStr (s : str)
  | MInt (n : Z).

Section Store.

(** [F] stands for the floats an embedding is made of; the store only looks
    at how many of them a vector has. *)
Context {F : Type}.

(** One persisted index entry: id, chunk text, vector, metadata. *)
Record entry : Type := Entry {
  entry_id : str;
  entry_document : str;
  entry_embedding : list F;
  entry_metadata : gmap str meta_value
}.

(** What the functions of [vectordb/] act on: the files they read, the
    collections persisted under [./chroma_store] (by name, entries in
    insertion order), and the number of uuids drawn so far. *)
Record world : Type := World {
  files : gmap str str;
  chroma : gmap str (list entry);
  entropy : nat
}.

Definition set_chroma (f : gmap str (list entry) -> gmap str (list entry)) (w : world) : world :=
  {| files := files w; chroma := f (chroma w); entropy := entropy w |}.

Definition set_entropy (n : nat) (w : world) : world :=
  {| files := files w; chroma := chroma w; entropy := n |}.

(** A collection handle names the collection it reads and writes. *)
Record Collection : Type := Handle { coll_name : str }.

(** *** The store's contract *)

(** Modelled from the spec: the vector-store client ([chromadb], a
    third-party package, not under [src/]), after section 4.3.  Opening a
    collection that is absent fails with [CollectionNotFoundError]. *)
Definition client_get_collection (name : str) : M world Collection :=
  fun w =>
    match chroma w !! name with
    | Some _ => (Ok (Handle name), w)
    | None => (Raise CollectionNotFoundError, w)
    end.

(** Modelled from the spec: creating a collection gives an empty, named set
    of entries; the name must be free. *)
Definition client_create_collection (name : str) : M world Collection :=
  fun w =>
    match chroma w !! name with
    | Some _ => (Raise CollectionExistsError, w)
    | None => (Ok (Handle name), set_chroma (insert name []) w)
    end.

Fixpoint make_entries (ids documents : list str) (embeddings : list (list F))
    (metadatas : list (gmap str meta_value)) : list entry :=
  match ids, documents, embeddings, metadatas with
  | i :: ids', d :: documents', v :: embeddings', m :: metadatas' =>
      Entry i d v m :: make_entries ids' documents' embeddings' metadatas'
  | _, _, _, _ => []
  end.

(** The dimension a collection has established: that of its first entry,
    or of the first vector of the batch that fills an empty collection. *)
Definition established_dimension (old : list entry) (embeddings : list (list F)) : option nat :=
  match old, embeddings with
  | e :: _, _ => Some (length (entry_embedding e))
  | [], v :: _ => Some (length v)
  | [], [] => None
  end.

Definition dimensions_agree (old : list entry) (embeddings : list (list F)) : bool :=
  match established_dimension old embeddings with
  | Some d => forallb (fun v => Nat.eqb (length v) d) embeddings
  | None => true
  end.

(** Every id of the batch is new: neither in the collection nor earlier in
    the batch. *)
Fixpoint ids_fresh (seen ids : list str) : bool :=
  match ids with
  | [] => true
  | i :: ids' => negb (bool_decide (i ∈ seen)) && ids_fresh (i :: seen) ids'
  end.

(** Modelled from the spec: [insert] of section 4.3 ([collection.add]).
    The four arrays are index-aligned; a vector of another dimension than
    the collection's fails with [DimensionMismatchError], an id that exists
    with [DuplicateIdError]; a failed insert leaves the collection as it
    was, a successful one appends the batch in the caller's order. *)
Definition collection_add (c : Collection) (documents : list str)
    (embeddings : list (list F)) (metadatas : list (gmap str meta_value))
    (ids : list str) : M world unit :=
  fun w =>
    match chroma w !! coll_name c with
    | None => (Raise CollectionNotFoundError, w)
    | Some old =>
        if negb (Nat.eqb (length documents) (length ids)
                 && Nat.eqb (length embeddings) (length ids)
                 && Nat.eqb (length metadatas) (length ids))
        then (Raise LengthMismatchError, w)
        else if negb (dimensions_agree old embeddings)
        then (Raise DimensionMismatchError, w)
        else if negb (ids_fresh (entry_id <$> old) ids)
        then (Raise DuplicateIdError, w)
        else (Ok tt,
              set_chroma (insert (coll_name c)
                            (old ++ make_entries ids documents embeddings metadatas)) w)
    end.

(** Modelled from the spec: the plain listing of a collection, in insertion
    order (section 5). *)
Definition collection_get (c : Collection) : M world (list entry) :=
  fun w =>
    match chroma w !! coll_name c with
    | Some es => (Ok es, w)
    | None => (Raise CollectionNotFoundError, w)
    end.

(** *** [vectordb/chroma_setup.py] *)

(** [get_collection(name)]: a client over the persisted store, then
    [try: return client.get_collection(name)] with a bare [except] that
    falls back to [client.create_collection(name)]. *)
Definition get_collection (name : str) : M world Collection :=
  try_except (client_get_collection name) (client_create_collection name).

Definition default_collection : str := lit "my_collection".

(** *** [vectordb/chroma_add.py] *)

(** [open(path, 'r', encoding='utf-8')] and [f.read()]: [files] holds, for
    each path that exists, the text [read] returns. *)
Definition read_file (path : str) : M world str :=
  fun w =>
    match files w !! path with
    | Some text => (Ok text, w)
    | None => (Raise FileNotFoundError, w)
    end.

(** [load_text(path)]:
    [[chunk.strip() for chunk in text.split('\n\n') if chunk.strip()]]. *)
Definition load_text (path : str) : M world (list str) :=
  text <- read_file path;;
  ret (strip <$> List.filter (fun chunk => nonempty (strip chunk)) (split (lit "\n\n") text)).

(** [[f(x) for x in xs]] where [f] has effects: left to right. *)
Fixpoint comprehension {S A B} (f : A -> M S B) (xs : list A) : M S (list B) :=
  match xs with
  | [] => ret []
  | x :: xs' => y <- f x;; ys <- comprehension f xs';; ret (y :: ys)
  end.

(** [embeddings/embedder.py]: [embed_texts] hands the batch to the sentence
    encoder, one vector per text, in order.  [encode] is the model. *)
Context (encode : str -> list F).

Definition embed_texts (texts : list str) : list (list F) := encode <$> texts.

(** [str(uuid.uuid4())]: [uuid_at n] is the text of the uuid built from the
    [n]-th draw of the system's entropy. *)
Context (uuid_at : nat -> str).

Definition uuid4 : M world str :=
  fun w => (Ok (uuid_at (entropy w)), set_entropy (S (entropy w)) w).

(** The metadata list of [add_documents]:
    [[{"source": file_path, "chunk_index": i} for i in range(len(chunks))]]. *)
Definition chunk_metadatas (file_path : str) (chunks : list str) : list (gmap str meta_value) :=
  (fun i => <[lit "source" := MStr file_path]> {[ lit "chunk_index" := MInt (Z.of_nat i) ]})
    <$> seq 0 (length chunks).

(** [add_documents(file_path, collection_name)], the definition the module
    ends up with (the second [def] of the file rebinds the name): read the
    file, split it on single newlines, embed the chunks, open the
    collection, draw one uuid per chunk and insert the batch.  The closing
    [print] is left out. *)
Definition add_documents (file_path collection_name : str) : M world unit :=
  content <- read_file file_path;;
  let chunks := split (lit "\n") content in
  let embeddings := embed_texts chunks in
  collection <- get_collection collection_name;;
  let metadatas := chunk_metadatas file_path chunks in
  ids <- comprehension (fun _ => uuid4) (seq 0 (length chunks));;
  collection_add collection chunks embeddings metadatas ids.

End Store.

Arguments entry : clear implicits.
Arguments world : clear implicits.

End VectorDB.

(** ** Streamed answers of the local model *)

Module Ollama.

(** What [json.loads] can return. A float is kept as the finite binary
    number [m * 2^e] it denotes. *)
#[warnings="-register-all"]
Inductive pyval : Type :=
  | PNone
  | PBool (b : bool)
  | PInt (n : Z)
  | PFloat (m e : Z)
  | PStr (s : str)
  | PList (l : list pyval)
  | PDict (d : gmap str pyval).

(** Truth value of an object, as [if x:] tests it. *)
Definition truthy (v : pyval) : bool :=
  match v with
  | PNone => false
  | PBool b => b
  | PInt n => negb (Z.eqb n 0)
  | PFloat m _ => negb (Z.eqb m 0)
  | PStr s => nonempty s
  | PList l => match l with [] => false | _ :: _ => true end
  | PDict d => negb (Nat.eqb (size d) 0)
  end.

(** [chunk.get(key, default)]: only a [dict] has the method. *)
Definition py_get {S} (chunk : pyval) (key : str) (default_value : pyval) : M S pyval :=
  match chunk with
  | PDict d => ret (default default_value (d !! key))
  | _ => raise AttributeError
  end.

(** [full_response += value] with [full_response] a [str]: concatenation
    when [value] is a [str], [TypeError] otherwise. *)
Definition iadd_str {S} (full_response : str) (value : pyval) : M S str :=
  match value with
  | PStr s => ret (full_response ++ s)
  | _ => raise TypeError
  end.

Definition continuation (b : N) : bool := (128 <=? b) && (b <=? 191).

Definition between (lo hi b : N) : bool := (lo <=? b) && (b <=? hi).

(** [line.decode('utf-8')], strict: shortest-form sequences only, no
    surrogates, nothing above U+10FFFF; [None] is [UnicodeDecodeError]. *)
Fixpoint utf8_decode (bs : bytes) : option str :=
  match bs with
  | [] => Some []
  | b0 :: r0 =>
      if b0 <? 128 then cons b0 <$> utf8_decode r0
      else if between 194 223 b0 then
        match r0 with
        | b1 :: r1 =>
            if continuation b1
            then cons ((b0 - 192) * 64 + (b1 - 128)) <$> utf8_decode r1
            else None
        | _ => None
        end
      else if between 224 239 b0 then
        match r0 with
        | b1 :: b2 :: r2 =>
            if between (if b0 =? 224 then 160 else 128) (if b0 =? 237 then 159 else 191) b1
               && continuation b2
            then cons ((b0 - 224) * 4096 + (b1 - 128) * 64 + (b2 - 128)) <$> utf8_decode r2
            else None
        | _ => None
        end
      else if between 240 244 b0 then
        match r0 with
        | b1 :: b2 :: b3 :: r3 =>
            if between (if b0 =? 240 then 144 else 128) (if b0 =? 244 then 143 else 191) b1
               && continuation b2 && continuation b3
            then cons ((b0 - 240) * 262144 + (b1 - 128) * 4096 + (b2 - 128) * 64 + (b3 - 128))
                   <$> utf8_decode r3
            else None
        | _ => None
        end
      else None
  end.

Definition decode {S} (line : bytes) : M S str :=
  match utf8_decode line with
  | Some data => ret data
  | None => raise UnicodeDecodeError
  end.

(** The reply of [requests.post(..., stream=True)]: its status and the
    lines [response.iter_lines()] yields. *)
Record response : Type := Response {
  status_code : Z;
  iter_lines : list bytes
}.

(** [response.raise_for_status()]: a 4xx or 5xx status raises. *)
Definition raise_for_status {S} (r : response) : M S unit :=
  if ((400 <=? status_code r) && (status_code r <? 600))%Z
  then raise HTTPError
  else ret tt.

(** The state of the script: the lines written to the console or a log. *)
Abbreviation console := (list str).

Section Stream.

(** [json.loads] on a decoded line; [None] is [json.JSONDecodeError]. *)
Context (json_loads : str -> option pyval).

(** The body of [for line in response.iter_lines():], with the running
    [full_response].  Only [json.loads] can raise what the [except] clause
    catches; [break] ends the loop with the text gathered so far. *)
Fixpoint read_lines (lines : list bytes) (full_response : str) : M console str :=
  match lines with
  | [] => ret full_response
  | line :: rest =>
      if nonempty line then
        data <- decode line;;
        match json_loads data with
        | Some chunk =>
            fragment <- py_get chunk (lit "response") (PStr []);;
            full_response' <- iadd_str full_response fragment;;
            done <- py_get chunk (lit "done") (PBool false);;
            if truthy done then ret full_response'
            else read_lines rest full_response'
        | None => read_lines rest full_response
        end
      else read_lines rest full_response
  end.

(** [post prompt] is the reply of the local server to the generation
    request for [prompt]. *)
Context (post : str -> response).

(** [query_ollama_stream(prompt)]. *)
Definition query_ollama_stream (prompt : str) : M console str :=
  let response := post prompt in
  _ <- raise_for_status response;;
  read_lines (iter_lines response) [].

End Stream.

End Ollama.

(** ** The voice assistant script *)

Module Script.

Import Ollama.

(** What the rest of [speech_to_text.py] acts on: the lines printed and the
    texts handed to the speech engine, oldest first. *)
Record stage : Type := Stage {
  printed : list str;
  spoken : list str
}.

(** [print(line)]. *)
Definition print (line : str) : M stage unit :=
  fun s => (Ok tt, {| printed := printed s ++ [line]; spoken := spoken s |}).

(** A computation that only touches the console, run on the stage. *)
Definition on_console {A} (m : M console A) : M stage A :=
  fun s =>
    let (r, c) := m (printed s) in
    (r, {| printed := c; spoken := spoken s |}).

(** [str(n)] for an [int]: decimal digits, most significant first. *)
Fixpoint decimal_digits (fuel : nat) (n : N) (acc : str) : str :=
  match fuel with
  | O => acc
  | S fuel' =>
      let acc' := (48 + n mod 10) :: acc in
      if n <? 10 then acc' else decimal_digits fuel' (n / 10) acc'
  end.

Definition str_of_int (z : Z) : str :=
  let n := Z.abs_N z in
  let digits := decimal_digits (S (N.to_nat (N.log2 n))) n [] in
  if (z <? 0)%Z then 45 :: digits else digits.

Section Devices.

(** The sound card: [sd.rec(frames, samplerate=fs, channels=1,
    dtype='int16')] followed by [sd.wait()] and [flatten()] gives the
    samples recorded. *)
Context (sd_rec : Z -> Z -> list Z).

(** The speech recogniser: the ["text"] of [whisper_model.transcribe] on the
    recording saved as a wav file. *)
Context (transcribe : list Z -> str).

(** [record_audio(duration, fs)] for an [int] duration. *)
Definition record_audio (duration fs : Z) : M stage (list Z) :=
  _ <- print (lit "Recording for " ++ str_of_int duration ++ lit " seconds...");;
  let recording := sd_rec (duration * fs)%Z fs in
  _ <- print (lit "Recording complete.");;
  ret recording.

(** [speech_to_text(audio_array)]: the temporary wav file is written,
    transcribed and unlinked inside the call. *)
Definition speech_to_text (audio_array : list Z) : M stage str :=
  ret (transcribe audio_array).

(** [speak_text(text)]: [engine.say(text)] and [engine.runAndWait()]. *)
Definition speak_text (text : str) : M stage unit :=
  fun s => (Ok tt, {| printed := printed s; spoken := spoken s ++ [text] |}).

Context (json_loads : str -> option pyval) (post : str -> response).

(** The body of [if __name__ == "__main__":]. *)
Definition main : M stage unit :=
  audio_data <- record_audio 5 16000;;
  _ <- print (lit "Transcribing speech...");;
  text <- speech_to_text audio_data;;
  _ <- print (lit "You said: " ++ text);;
  _ <- print (lit "Generating LLaMA 3 response...");;
  answer <- on_console (query_ollama_stream json_loads post text);;
  _ <- print (lit "Ollama says: " ++ answer);;
  speak_text answer.

End Devices.

End Script.

(** ** Sample data *)

Module Samples.

Import VectorDB Ollama.

(** Three small files and a store with no collection yet. *)
Definition sample_files : gmap str str :=
  <[lit "abc.txt" := lit "A\n\nB\n\nC"]>
  (<[lit "blank.txt" := lit " \n\n\t \n\n\n"]>
  {[ lit "notes.txt" := lit "A\n\nB\n" ]}).

Definition sample_world : world Z := World sample_files ∅ 0.

(** An embedder of dimension 3 and a supply of distinct ids. *)
Definition sample_encode (text : str) : list Z := [Z.of_nat (length text); 1; 0]%Z.

Definition sample_uuid (n : nat) : str := lit "uuid-" ++ [N.of_nat n + 48].

(** A streamed reply: an open record, an empty line, a truncated record,
    the done record, and a stray byte that is not UTF-8. *)
Definition line_hi : bytes := lit "{\x22response\x22: \x22Hi\x22}".

Definition line_truncated : bytes := lit "{\x22response\x22: \x22th".

Definition line_done : bytes := lit "{\x22response\x22: \x22!\x22, \x22done\x22: true}".

Definition sample_reply : response :=
  Response 200 [line_hi; []; line_truncated; line_done; [255]].

Definition sample_post (prompt : str) : response := sample_reply.

(** [json.loads] on the texts of the sample reply. *)
Definition sample_loads (data : str) : option pyval :=
  if bool_decide (data = line_hi)
  then Some (PDict {[ lit "response" := PStr (lit "Hi") ]})
  else if bool_decide (data = line_done)
  then Some (PDict (<[lit "response" := PStr (lit "!")]> {[ lit "done" := PBool true ]}))
  else None.

End Samples.

Module MoreSamples.

Import Ollama Samples.

(** A reply cut short: the stray byte comes before any done record. *)
Definition cut_post (prompt : str) : response :=
  Response 200 [line_hi; []; line_truncated; [255]].

(** [json.loads] on a reply whose records carry the name of the model
    besides the fields of [sample_loads]. *)
Definition verbose_loads (data : str) : option pyval :=
  match sample_loads data with
  | Some (PDict d) => Some (PDict (<[lit "model" := PStr (lit "llama3")]> d))
  | other => other
  end.

End MoreSamples.

(** ** Vocabulary of the statements *)

Module Spec.

Import VectorDB Ollama.

(** A text with no character but whitespace (the empty text included). *)
Definition blank (s : str) : bool := forallb isspace s.

(** A chunk as [strip] leaves it: non-empty, with a first and a last
    character that are not whitespace. *)
Definition trimmed (s : str) : Prop :=
  (exists c, head s = Some c /\ isspace c = false) /\
  (exists c, last s = Some c /\ isspace c = false).

(** [chunk] is [piece] without its leading and trailing whitespace. *)
Definition trims (piece chunk : str) : Prop :=
  exists ws1 ws2,
    piece = ws1 ++ chunk ++ ws2 /\ blank ws1 = true /\ blank ws2 = true /\ trimmed chunk.

(** [sep] occurs somewhere inside [s]. *)
Definition occurs (sep s : str) : Prop := exists l1 l2, s = l1 ++ sep ++ l2.

(** No occurrence of the separator starts inside the piece being built. *)
Definition scan_inv (sep cur s : str) : Prop :=
  forall l1 l2, reverse cur ++ s = l1 ++ sep ++ l2 -> (length cur <= length l1)%nat.

Section Ingest.

Context {F : Type} (encode : str -> list F) (uuid_at : nat -> str) (dimension : nat).

(** The batch one call of [add_documents] inserts for the chunks of a file,
    when [first] uuids have been drawn before. *)
Definition batch (path : str) (chunks : list str) (first : nat) : list (entry F) :=
  make_entries (uuid_at <$> seq first (length chunks)) chunks
    (embed_texts encode chunks) (chunk_metadatas path chunks).

(** The entries of a collection are as [add_documents] leaves them:
    vectors of the embedder's dimension, under ids drawn so far. *)
Definition entries_ok (drawn : nat) (es : list (entry F)) : Prop :=
  Forall (fun e => length (entry_embedding e) = dimension /\
                   exists k, (k < drawn)%nat /\ entry_id e = uuid_at k) es.

Definition store_ok (w : world F) : Prop :=
  forall name es, chroma w !! name = Some es ->
    NoDup (entry_id <$> es) /\ entries_ok (entropy w) es.

End Ingest.

Section Stream.

Context (json_loads : str -> option pyval).

(** A well-formed record: a non-empty line that decodes and parses to an
    object whose "response", when present, is a [str]; [fragment] is that
    text (empty when absent) and [done] the truth value of its "done". *)
Definition record (line : bytes) (fragment : str) (done : bool) : Prop :=
  line <> [] /\
  exists data d,
    utf8_decode line = Some data /\ json_loads data = Some (PDict d) /\
    default (PStr []) (d !! lit "response") = PStr fragment /\
    truthy (default (PBool false) (d !! lit "done")) = done.

(** A malformed record: a non-empty line of text that is not valid JSON. *)
Definition malformed (line : bytes) : Prop :=
  line <> [] /\ exists data, utf8_decode line = Some data /\ json_loads data = None.

(** How a reply reads: blank lines and malformed records carry nothing,
    a record carries its fragment, and a record flagged done is the last
    one read ([finished]), whatever follows it. *)
Inductive stream_view : list bytes -> list str -> bool -> Prop :=
  | view_end : stream_view [] [] false
  | view_blank (rest : list bytes) (fragments : list str) (finished : bool) :
      stream_view rest fragments finished ->
      stream_view ([] :: rest) fragments finished
  | view_malformed (line : bytes) (rest : list bytes) (fragments : list str) (finished : bool) :
      malformed line -> stream_view rest fragments finished ->
      stream_view (line :: rest) fragments finished
  | view_record (line : bytes) (fragment : str) (rest : list bytes) (fragments : list str)
      (finished : bool) :
      record line fragment false -> stream_view rest fragments finished ->
      stream_view (line :: rest) (fragment :: fragments) finished
  | view_done (line : bytes) (fragment : str) (rest : list bytes) :
      record line fragment true -> stream_view (line :: rest) [fragment] true.

End Stream.

End Spec.

Import Spec.

(** ** Further vocabulary *)

Module Further.

Import VectorDB Ollama.

(** The line feed. *)
Definition newline : N := 10.

(** The characters of a text that are not whitespace, in order. *)
Definition visible (s : str) : str := List.filter (fun c => negb (isspace c)) s.

(** The metadata [add_documents] gives the chunk at position [i] of a file. *)
Definition chunk_metadata (file_path : str) (i : nat) : gmap str meta_value :=
  <[lit "source" := MStr file_path]> {[ lit "chunk_index" := MInt (Z.of_nat i) ]}.

Section Stream.

Context (json_loads : str -> option pyval).

(** A line the loop of [query_ollama_stream] does not survive, with the
    exception it ends in: bytes that are not UTF-8, a JSON value that is
    not an object, an object whose "response" is not a [str]. *)
Inductive fatal : bytes -> exn -> Prop :=
  | fatal_undecodable (line : bytes) :
      line <> [] -> utf8_decode line = None -> fatal line UnicodeDecodeError
  | fatal_not_object (line : bytes) (data : str) (chunk : pyval) :
      line <> [] -> utf8_decode line = Some data -> json_loads data = Some chunk ->
      (forall d, chunk <> PDict d) -> fatal line AttributeError
  | fatal_not_text (line : bytes) (data : str) (d : gmap str pyval) (value : pyval) :
      line <> [] -> utf8_decode line = Some data -> json_loads data = Some (PDict d) ->
      d !! lit "response" = Some value -> (forall text, value <> PStr text) ->
      fatal line TypeError.

End Stream.

(** Two results of [json.loads] that the loop cannot tell apart: both are
    [JSONDecodeError], or both are values that are not objects, or both are
    objects with the same "response" and a "done" of the same truth value. *)
Definition alike (o o' : option pyval) : Prop :=
  match o, o' with
  | None, None => True
  | Some (PDict d), Some (PDict d') =>
      d !! lit "response" = d' !! lit "response" /\
      truthy (default (PBool false) (d !! lit "done"))
      = truthy (default (PBool false) (d' !! lit "done"))
  | Some v, Some v' => (forall d, v <> PDict d) /\ (forall d, v' <> PDict d)
  | _, _ => False
  end.

End Further.

Import Further.

(** * Facts *)

(** ** [str.split], [str.join], [str.strip] *)

Example lit_newlines : lit "A\n\nB" = [65; 10; 10; 66].
Proof. reflexivity. Qed.

Example split_leftmost :
  split (lit "\n\n") (lit "A\n\nB\n\n\nC") = [lit "A"; lit "B"; lit "\nC"].
Proof. reflexivity. Qed.

Section StringFacts.

Implicit Types s sep cur piece : str.

Lemma startswith_app sep s : startswith sep (sep ++ s) = true.
Proof.
  induction sep as [|a sep IH]; simpl; [done|].
  by rewrite N.eqb_refl, IH.
Qed.

Lemma startswith_inv sep s : startswith sep s = true -> s = sep ++ drop (length sep) s.
Proof.
  revert s. induction sep as [|a sep IH]; intros [|b s]; simpl; try done.
  intros [Hab Hs]%andb_prop. apply N.eqb_eq in Hab as ->. f_equal. by apply IH.
Qed.

Lemma split_scan_skip sep x s cur :
  split_scan sep (x ++ s) (length x) cur = split_scan sep s 0 cur.
Proof.
  induction x as [|c x IH]; simpl; [|done].
  destruct s; reflexivity.
Qed.

(** The scan, one step at a time. *)
Lemma split_scan_step sep c s cur :
  sep <> [] ->
  split_scan sep (c :: s) 0 cur =
    if startswith sep (c :: s)
    then reverse cur :: split_scan sep (drop (length sep) (c :: s)) 0 []
    else split_scan sep s 0 (c :: cur).
Proof.
  intros Hsep. simpl split_scan.
  destruct (startswith sep (c :: s)) eqn:Hst; [|done].
  f_equal. apply startswith_inv in Hst.
  destruct sep as [|a sep]; [done|]. simpl in *.
  injection Hst as _ Hs. rewrite Nat.sub_0_r.
  rewrite Hs at 1. apply split_scan_skip.
Qed.

Lemma split_scan_not_nil sep s skip cur : split_scan sep s skip cur <> [].
Proof.
  revert skip cur. induction s as [|c s IH]; intros skip cur; simpl; [done|].
  destruct skip; [destruct (startswith _ _)|]; try done; apply IH.
Qed.

Lemma join_cons sep piece rest :
  rest <> [] -> join sep (piece :: rest) = piece ++ sep ++ join sep rest.
Proof. by destruct rest. Qed.

Lemma join_split_scan sep (n : nat) : forall s cur,
  sep <> [] -> (length s <= n)%nat ->
  join sep (split_scan sep s 0 cur) = reverse cur ++ s.
Proof.
  induction n as [|n IH]; intros [|c s] cur Hsep Hn; simpl in Hn; try lia.
  - simpl. by rewrite app_nil_r.
  - simpl. by rewrite app_nil_r.
  - rewrite split_scan_step by done.
    destruct (startswith sep (c :: s)) eqn:Hst.
    + rewrite join_cons by apply split_scan_not_nil.
      rewrite IH; [|done|].
      * simpl. by rewrite <- (startswith_inv _ _ Hst).
      * destruct sep; [done|]. simpl. rewrite length_drop. lia.
    + rewrite IH by (done || lia). rewrite reverse_cons, <- app_assoc. done.
Qed.

(** Joining the pieces with the separator gives the text back. *)
Lemma join_split sep s : sep <> [] -> join sep (split sep s) = s.
Proof. intros. unfold split. by rewrite (join_split_scan sep (length s)). Qed.

Lemma scan_inv_closed sep cur s :
  sep <> [] -> scan_inv sep cur s -> ~ occurs sep (reverse cur).
Proof.
  intros Hsep Hinv (l1 & l2 & Heq).
  specialize (Hinv l1 (l2 ++ s)).
  rewrite Heq, <- !app_assoc in Hinv. specialize (Hinv eq_refl).
  apply (f_equal length) in Heq.
  rewrite length_reverse, !length_app in Heq.
  destruct sep; [done|]. simpl in Heq. lia.
Qed.

Lemma scan_inv_next sep cur c s :
  startswith sep (c :: s) = false -> scan_inv sep cur (c :: s) -> scan_inv sep (c :: cur) s.
Proof.
  intros Hst Hinv l1 l2 Heq.
  rewrite reverse_cons, <- app_assoc in Heq. simpl in Heq.
  pose proof (Hinv l1 l2 Heq) as Hle.
  destruct (decide (length cur = length l1)) as [Hlen|]; [|simpl; lia].
  apply app_inj_1 in Heq as [_ Heq]; [|by rewrite length_reverse].
  rewrite Heq, startswith_app in Hst. done.
Qed.

Lemma split_scan_no_sep sep (n : nat) : forall s cur,
  sep <> [] -> (length s <= n)%nat -> scan_inv sep cur s ->
  Forall (fun piece => ~ occurs sep piece) (split_scan sep s 0 cur).
Proof.
  induction n as [|n IH]; intros [|c s] cur Hsep Hn Hinv; simpl in Hn; try lia.
  - constructor; [|done]. by eapply scan_inv_closed.
  - constructor; [|done]. by eapply scan_inv_closed.
  - rewrite split_scan_step by done.
    destruct (startswith sep (c :: s)) eqn:Hst.
    + constructor; [by eapply scan_inv_closed|].
      apply IH; [done| |].
      * destruct sep; [done|]. simpl. rewrite length_drop. lia.
      * intros l1 l2 _. simpl. lia.
    + apply IH; [done|lia|]. by apply scan_inv_next.
Qed.

(** No piece contains the separator. *)
Lemma split_no_sep sep s :
  sep <> [] -> Forall (fun piece => ~ occurs sep piece) (split sep s).
Proof.
  intros. apply (split_scan_no_sep sep (length s)); [done|lia|].
  intros l1 l2 _. simpl. lia.
Qed.

Lemma blank_app s1 s2 : blank (s1 ++ s2) = blank s1 && blank s2.
Proof. apply forallb_app. Qed.

Lemma blank_reverse s : blank (reverse s) = blank s.
Proof.
  induction s as [|c s IH]; [done|].
  rewrite reverse_cons, blank_app, IH. simpl. rewrite andb_true_r. apply andb_comm.
Qed.

(** [lstrip] removes a blank prefix and stops at a non-space character. *)
Lemma lstrip_spec s :
  exists ws, s = ws ++ lstrip s /\ blank ws = true /\
    (lstrip s = [] \/ exists c, head (lstrip s) = Some c /\ isspace c = false).
Proof.
  induction s as [|c s (ws & Hs & Hws & Hhd)]; simpl.
  - exists []. auto.
  - destruct (isspace c) eqn:Hc.
    + exists (c :: ws). simpl. rewrite Hc, Hws. split; [by f_equal|]. split; [done|]. exact Hhd.
    + exists []. simpl. split; [done|]. split; [done|]. right. by exists c.
Qed.

Lemma lstrip_nil s : lstrip s = [] <-> blank s = true.
Proof.
  induction s as [|c s IH]; simpl; [done|].
  destruct (isspace c); simpl; [done|]. split; discriminate.
Qed.

Lemma blank_lstrip s : blank (lstrip s) = blank s.
Proof.
  destruct (lstrip_spec s) as (ws & Hs & Hws & _).
  rewrite Hs at 2. by rewrite blank_app, Hws.
Qed.

(** [strip] gives the empty text exactly on blank input. *)
Lemma strip_nil s : strip s = [] <-> blank s = true.
Proof.
  unfold strip, rstrip. rewrite <- blank_lstrip, <- blank_reverse, <- lstrip_nil.
  split; [|by intros ->].
  intros H. apply (f_equal reverse) in H. by rewrite reverse_involutive in H.
Qed.

Lemma nonempty_strip s : nonempty (strip s) = negb (blank s).
Proof.
  destruct (blank s) eqn:Hb.
  - apply strip_nil in Hb. by rewrite Hb.
  - destruct (strip s) eqn:Hs; [|done].
    apply strip_nil in Hs. congruence.
Qed.

Lemma head_app_ne s1 s2 : s1 <> [] -> head (s1 ++ s2) = head s1.
Proof. by destruct s1. Qed.

(** On a text that is not blank [strip] keeps exactly what lies between the
    leading and the trailing whitespace. *)
Lemma strip_trims s : blank s = false -> trims s (strip s).
Proof.
  intros Hb.
  assert (strip s <> []) as Hne by (rewrite strip_nil; congruence).
  destruct (lstrip_spec s) as (ws1 & Hs & Hws1 & Hhd).
  destruct (lstrip_spec (reverse (lstrip s))) as (ws2 & Hr & Hws2 & Hhd2).
  assert (lstrip s = strip s ++ reverse ws2) as Ht.
  { unfold strip, rstrip. rewrite <- reverse_app, <- Hr. by rewrite reverse_involutive. }
  exists ws1, (reverse ws2). split; [by rewrite <- Ht|].
  split; [done|]. split; [by rewrite blank_reverse|].
  split.
  - destruct Hhd as [Hnil|Hhd]; [rewrite Hnil in Ht; by destruct (strip s)|].
    by rewrite Ht, head_app_ne in Hhd.
  - destruct Hhd2 as [Hnil|(c & Hc & Hsp)].
    + unfold strip, rstrip in Hne. rewrite Hnil in Hne. done.
    + exists c. split; [|done]. unfold strip, rstrip. by rewrite last_reverse.
Qed.

Lemma blank_join sep pieces :
  blank sep = true -> blank (join sep pieces) = forallb blank pieces.
Proof.
  intros Hsep. induction pieces as [|p [|q rest] IH]; [done| |].
  - simpl. by rewrite andb_true_r.
  - rewrite join_cons by done. rewrite !blank_app, Hsep, IH. done.
Qed.

Lemma filter_nonblank_nil (pieces : list str) :
  List.filter (fun chunk => nonempty (strip chunk)) pieces = [] <-> forallb blank pieces = true.
Proof.
  induction pieces as [|p rest IH]; simpl; [done|].
  rewrite nonempty_strip. destruct (blank p); simpl; [done|].
  split; discriminate.
Qed.

Lemma filter_nonblank_trims (pieces : list str) :
  Forall2 trims (List.filter (fun piece => negb (blank piece)) pieces)
    (strip <$> List.filter (fun chunk => nonempty (strip chunk)) pieces).
Proof.
  induction pieces as [|p rest IH]; simpl; [constructor|].
  rewrite nonempty_strip. destruct (blank p) eqn:Hb; simpl; [done|].
  constructor; [by apply strip_trims|done].
Qed.

End StringFacts.

(** ** The paragraph chunker: [load_text] *)

Section Chunker.

Import VectorDB.
Context {F : Type}.
Implicit Types (w : world F) (path text : str).

Lemma load_text_run w path text :
  files w !! path = Some text ->
  load_text path w =
    (Ok (strip <$> List.filter (fun chunk => nonempty (strip chunk)) (split (lit "\n\n") text)), w).
Proof. intros H. unfold load_text, bind, read_file. by rewrite H. Qed.

Lemma load_text_outcome w path :
  (exists chunks, fst (load_text path w) = Ok chunks) \/
  fst (load_text path w) = Raise FileNotFoundError.
Proof.
  unfold load_text, bind, read_file.
  destruct (files w !! path); simpl; eauto.
Qed.

(** C2. Paragraph chunking of any text: the pieces between the blank-line
    separators (joined by the separator they give the text back, and none
    contains it), those that are empty or whitespace-only dropped, the others
    kept in order, each without its leading and trailing whitespace.  On
    the text "A\n\nB\n\nC" the chunks are "A", "B", "C". *)
Theorem load_text_paragraphs w path text :
  files w !! path = Some text ->
  exists pieces chunks,
    load_text path w = (Ok chunks, w) /\
    join (lit "\n\n") pieces = text /\
    Forall (fun piece => ~ occurs (lit "\n\n") piece) pieces /\
    Forall2 trims (List.filter (fun piece => negb (blank piece)) pieces) chunks /\
    (text = lit "A\n\nB\n\nC" -> chunks = [lit "A"; lit "B"; lit "C"]).
Proof.
  intros Hfile. eexists (split (lit "\n\n") text), _.
  split; [by apply load_text_run|].
  split; [by apply join_split|].
  split; [by apply split_no_sep|].
  split; [apply filter_nonblank_trims|].
  by intros ->.
Qed.

(** C4, as the code has it.  [load_text] never fails with
    [EmptyInputError]: when no chunk is left after filtering, which is the
    case exactly when the text has no character but whitespace, it returns
    the empty sequence. *)
Theorem load_text_blank_gives_empty w path text :
  files w !! path = Some text ->
  (blank text = true <-> load_text path w = (Ok [], w)) /\
  forall w' path', fst (load_text path' w') <> Raise EmptyInputError.
Proof.
  intros Hfile. split.
  2:{ intros w' path'. by destruct (load_text_outcome w' path') as [[chunks ->]| ->]. }
  rewrite (load_text_run _ _ _ Hfile).
  rewrite <- (join_split (lit "\n\n") text) at 1 by done.
  rewrite blank_join by done. rewrite <- filter_nonblank_nil.
  split; [by intros ->|].
  intros [= H]. by apply fmap_nil_inv in H.
Qed.

End Chunker.

(** C2 at the file [abc.txt] of the samples. *)
Lemma load_text_paragraphs_witness :
  VectorDB.files Samples.sample_world !! lit "abc.txt" = Some (lit "A\n\nB\n\nC") /\
  VectorDB.load_text (lit "abc.txt") Samples.sample_world
    = (Ok [lit "A"; lit "B"; lit "C"], Samples.sample_world).
Proof.
  split; [reflexivity|].
  destruct (load_text_paragraphs Samples.sample_world (lit "abc.txt") (lit "A\n\nB\n\nC") eq_refl)
    as (pieces & chunks & Hrun & _ & _ & _ & Habc).
  rewrite Hrun, (Habc eq_refl). reflexivity.
Defined.

(** C4, as the spec words it, fails: a file of blank lines makes
    [load_text] return the empty sequence, not raise. *)
Lemma load_text_blank_file_returns_empty :
  VectorDB.load_text (lit "blank.txt") Samples.sample_world = (Ok [], Samples.sample_world) /\
  fst (VectorDB.load_text (lit "blank.txt") Samples.sample_world) <> Raise EmptyInputError.
Proof. split; [reflexivity|discriminate]. Qed.

(** C4 at the file [blank.txt] of the samples. *)
Lemma load_text_blank_gives_empty_witness :
  VectorDB.files Samples.sample_world !! lit "blank.txt" = Some (lit " \n\n\t \n\n\n") /\
  blank (lit " \n\n\t \n\n\n") = true /\
  VectorDB.load_text (lit "blank.txt") Samples.sample_world = (Ok [], Samples.sample_world).
Proof.
  split; [reflexivity|]. split; [reflexivity|].
  apply (load_text_blank_gives_empty Samples.sample_world (lit "blank.txt") _ eq_refl).
  reflexivity.
Defined.

(** ** Opening a collection: [get_collection] *)

Section Setup.

Import VectorDB.
Context {F : Type}.
Implicit Types (w : world F) (name : str) (c : Collection).

Lemma get_collection_existing w name es :
  chroma w !! name = Some es -> get_collection name w = (Ok (Handle name), w).
Proof. intros H. unfold get_collection, try_except, client_get_collection. by rewrite H. Qed.

Lemma get_collection_new w name :
  chroma w !! name = None ->
  get_collection name w = (Ok (Handle name), set_chroma (insert name []) w).
Proof.
  intros H.
  unfold get_collection, try_except, client_get_collection, client_create_collection.
  rewrite H. simpl. by rewrite H.
Qed.

(** Whatever the store holds, [get_collection] returns a handle on the
    named collection, which exists afterwards with the entries it had. *)
Lemma get_collection_run w name :
  exists w',
    get_collection name w = (Ok (Handle name), w') /\
    chroma w' !! name = Some (default [] (chroma w !! name)) /\
    (forall es, chroma w !! name = Some es -> w' = w) /\
    (forall other, other <> name -> chroma w' !! other = chroma w !! other) /\
    files w' = files w /\ entropy w' = entropy w.
Proof.
  destruct (chroma w !! name) as [es|] eqn:Hname.
  - exists w. rewrite (get_collection_existing _ _ _ Hname). by rewrite Hname.
  - eexists. rewrite (get_collection_new _ _ Hname). split; [done|].
    simpl. rewrite lookup_insert_eq. split; [done|]. split; [done|].
    split; [|done]. intros other Hne. by rewrite lookup_insert_ne.
Qed.

Lemma collection_add_inv c documents embeddings metadatas ids w w' :
  collection_add c documents embeddings metadatas ids w = (Ok tt, w') ->
  exists old,
    chroma w !! coll_name c = Some old /\
    w' = set_chroma (insert (coll_name c)
           (old ++ make_entries ids documents embeddings metadatas)) w.
Proof.
  unfold collection_add. destruct (chroma w !! coll_name c) as [old|]; [|done].
  repeat case_match; try done. intros [= <-]. by exists old.
Qed.

(** C7. [get_collection] is idempotent.  It always returns a handle (in
    particular it never raises [CollectionNotFoundError]); a second call
    with the same name returns the same handle and leaves the store as it
    is, so no second collection is made; and what is inserted through the
    first handle is listed through the handle of a later call, after the
    entries the collection already had. *)
Theorem get_collection_idempotent w name :
  exists h w1,
    get_collection name w = (Ok h, w1) /\
    get_collection name w1 = (Ok h, w1) /\
    forall documents embeddings metadatas ids w2,
      collection_add h documents embeddings metadatas ids w1 = (Ok tt, w2) ->
      exists h2 old,
        get_collection name w2 = (Ok h2, w2) /\
        collection_get h2 w1 = (Ok old, w1) /\
        collection_get h2 w2 =
          (Ok (old ++ make_entries ids documents embeddings metadatas), w2).
Proof.
  destruct (get_collection_run w name) as (w1 & Hrun & Hname & _).
  exists (Handle name), w1. split; [done|].
  split; [by eapply get_collection_existing|].
  intros documents embeddings metadatas ids w2 Hadd.
  apply collection_add_inv in Hadd as (old & Hold & ->). simpl in Hold.
  exists (Handle name), old.
  split; [|split].
  - eapply get_collection_existing. simpl. apply lookup_insert_eq.
  - unfold collection_get. simpl. by rewrite Hold.
  - unfold collection_get. simpl. by rewrite lookup_insert_eq.
Qed.

End Setup.

(** ** Ingestion: [add_documents] *)

Section Ingest.

Import VectorDB.
Context {F : Type} (encode : str -> list F) (uuid_at : nat -> str).
Implicit Types (w : world F) (name path : str) (c : Collection) (es old : list (entry F)).

Lemma set_entropy_same w : set_entropy (entropy w) w = w.
Proof. by destruct w. Qed.

Lemma uuids_run {A} (xs : list A) : forall w,
  comprehension (fun _ => uuid4 uuid_at) xs w =
    (Ok (uuid_at <$> seq (entropy w) (length xs)),
     set_entropy (entropy w + length xs) w).
Proof.
  induction xs as [|x xs IH]; intros w; simpl.
  - unfold ret. by rewrite Nat.add_0_r, set_entropy_same.
  - unfold bind at 1. unfold uuid4 at 1. unfold bind at 1. rewrite IH. simpl.
    unfold ret, set_entropy. simpl. do 3 f_equal. lia.
Qed.

Lemma ids_fresh_spec (ids seen : list str) :
  ids_fresh seen ids = true <-> NoDup ids /\ forall i, i ∈ ids -> i ∉ seen.
Proof.
  revert seen. induction ids as [|i ids IH]; intros seen; simpl.
  - split; [|done]. intros _. split; [constructor|]. by intros i ?%elem_of_nil.
  - rewrite andb_true_iff, negb_true_iff, bool_decide_eq_false, IH, NoDup_cons.
    split.
    + intros (Hi & Hnd & Hall). split; [split; [|done]|].
      * intros Hin. apply (Hall _ Hin). by left.
      * intros j [->|Hj]%elem_of_cons; [done|].
        intros Hseen. apply (Hall _ Hj). by right.
    + intros ((Hi & Hnd) & Hall). split; [apply Hall; by left|].
      split; [done|]. intros j Hj [->|Hseen]%elem_of_cons; [done|].
      eapply Hall; [by right|done].
Qed.

Lemma make_entries_fields (ids documents : list str) (embeddings : list (list F))
    (metadatas : list (gmap str meta_value)) :
  length documents = length ids -> length embeddings = length ids ->
  length metadatas = length ids ->
  entry_id <$> make_entries ids documents embeddings metadatas = ids /\
  entry_document <$> make_entries ids documents embeddings metadatas = documents /\
  entry_embedding <$> make_entries ids documents embeddings metadatas = embeddings /\
  entry_metadata <$> make_entries ids documents embeddings metadatas = metadatas.
Proof.
  revert documents embeddings metadatas.
  induction ids as [|i ids IH]; intros [|d ds] [|v vs] [|m ms]; try done.
  intros [= Hd] [= Hv] [= Hm]. destruct (IH ds vs ms Hd Hv Hm) as (H1 & H2 & H3 & H4).
  csimpl. by rewrite H1, H2, H3, H4.
Qed.

Lemma collection_add_ok c documents embeddings metadatas ids w old :
  chroma w !! coll_name c = Some old ->
  length documents = length ids -> length embeddings = length ids ->
  length metadatas = length ids ->
  dimensions_agree old embeddings = true ->
  ids_fresh (entry_id <$> old) ids = true ->
  collection_add c documents embeddings metadatas ids w =
    (Ok tt, set_chroma (insert (coll_name c)
              (old ++ make_entries ids documents embeddings metadatas)) w).
Proof.
  intros Hold Hd Hv Hm Hdim Hfresh. unfold collection_add.
  by rewrite Hold, Hd, Hv, Hm, !Nat.eqb_refl, Hdim, Hfresh.
Qed.

Lemma split_length_pos sep s : (0 < length (split sep s))%nat.
Proof.
  unfold split. pose proof (split_scan_not_nil sep s 0 []).
  destruct (split_scan sep s 0 []); [done|simpl; lia].
Qed.

Local Abbreviation batch := (Spec.batch encode uuid_at).

Lemma batch_fields path chunks first :
  entry_id <$> batch path chunks first = uuid_at <$> seq first (length chunks) /\
  entry_document <$> batch path chunks first = chunks /\
  entry_embedding <$> batch path chunks first = encode <$> chunks /\
  entry_metadata <$> batch path chunks first = chunk_metadatas path chunks.
Proof.
  apply make_entries_fields; unfold embed_texts, chunk_metadatas;
    by rewrite !length_fmap, ?length_seq.
Qed.

(** The embedder gives every text a vector of the same dimension, and no
    two draws give the same uuid. *)
Context (dimension : nat).
Hypothesis encode_dimension : forall text, length (encode text) = dimension.
Hypothesis uuid_at_inj : forall m n, uuid_at m = uuid_at n -> m = n.

Local Abbreviation entries_ok := (Spec.entries_ok uuid_at dimension).
Local Abbreviation store_ok := (Spec.store_ok uuid_at dimension).

Lemma entries_ok_mono drawn drawn' es :
  (drawn <= drawn')%nat -> entries_ok drawn es -> entries_ok drawn' es.
Proof.
  intros Hle Hes. eapply Forall_impl; [exact Hes|]. intros e (Hdim & k & Hk & Hid).
  split; [done|]. exists k. split; [lia|done].
Qed.

Lemma store_ok_old w name :
  store_ok w ->
  NoDup (entry_id <$> default [] (chroma w !! name)) /\
  entries_ok (entropy w) (default [] (chroma w !! name)).
Proof.
  intros Hok. destruct (chroma w !! name) as [es|] eqn:Hes; simpl.
  - by apply (Hok name).
  - split; [constructor|by apply Forall_nil].
Qed.

Lemma batch_ok path chunks first :
  NoDup (entry_id <$> batch path chunks first) /\
  entries_ok (first + length chunks) (batch path chunks first) /\
  forall e, e ∈ batch path chunks first ->
    exists k, (first <= k)%nat /\ entry_id e = uuid_at k.
Proof.
  destruct (batch_fields path chunks first) as (Hids & _ & Hvec & _).
  assert (forall e, e ∈ batch path chunks first ->
            exists k, (first <= k < first + length chunks)%nat /\ entry_id e = uuid_at k) as Hk.
  { intros e He. apply (list_elem_of_fmap_2 entry_id) in He. rewrite Hids in He.
    apply list_elem_of_fmap in He as (k & -> & Hin). apply elem_of_seq in Hin. eauto. }
  split; [|split].
  - rewrite Hids. apply NoDup_fmap_2; [intros m n; apply uuid_at_inj|apply NoDup_seq].
  - apply Forall_forall. intros e He. split.
    + apply (list_elem_of_fmap_2 entry_embedding) in He. rewrite Hvec in He.
      apply list_elem_of_fmap in He as (text & -> & _). apply encode_dimension.
    + destruct (Hk e He) as (k & ? & ?). exists k. split; [lia|done].
  - intros e He. destruct (Hk e He) as (k & ? & ?). exists k. split; [lia|done].
Qed.

Lemma dimensions_agree_ok old chunks :
  Forall (fun e => length (entry_embedding e) = dimension) old ->
  dimensions_agree old (embed_texts encode chunks) = true.
Proof.
  intros Hdim.
  assert (forallb (fun v => Nat.eqb (length v) dimension) (embed_texts encode chunks) = true) as Hnew.
  { apply forallb_forall. intros v Hv.
    apply list_elem_of_In, list_elem_of_fmap in Hv as (text & -> & _).
    apply Nat.eqb_eq, encode_dimension. }
  unfold dimensions_agree, established_dimension.
  destruct old as [|e old]; [destruct chunks as [|t chunks]; [done|]|].
  - unfold embed_texts in *. rewrite fmap_cons in *. by rewrite encode_dimension.
  - apply Forall_cons in Hdim as [-> _]. done.
Qed.

Lemma drawn_later_fresh drawn old k :
  entries_ok drawn old -> (drawn <= k)%nat -> uuid_at k ∉ entry_id <$> old.
Proof.
  intros Hold Hk (e & Hid & He)%list_elem_of_fmap.
  eapply Forall_forall in Hold as (_ & k' & Hk' & Hid'); [|exact He].
  rewrite Hid' in Hid. apply uuid_at_inj in Hid. lia.
Qed.

(** One call of [add_documents] on a file that exists: it succeeds, draws
    one uuid per chunk and appends the batch to the named collection. *)
Lemma add_documents_run w path name content :
  store_ok w -> files w !! path = Some content ->
  exists w',
    add_documents encode uuid_at path name w = (Ok tt, w') /\
    files w' = files w /\
    entropy w' = (entropy w + length (split (lit "\n") content))%nat /\
    chroma w' =
      <[name := default [] (chroma w !! name)
                ++ batch path (split (lit "\n") content) (entropy w)]> (chroma w) /\
    store_ok w'.
Proof.
  intros Hok Hfile.
  set (chunks := split (lit "\n") content).
  set (old := default [] (chroma w !! name)).
  destruct (get_collection_run w name) as (w1 & Hget & Hname1 & _ & Hother & Hfiles1 & Hent1).
  destruct (store_ok_old w name Hok) as [Hnd Hold]. fold old in Hnd, Hold, Hname1.
  destruct (batch_ok path chunks (entropy w)) as (Hbnd & Hbok & Hbk).
  destruct (batch_fields path chunks (entropy w)) as (Hids & _).
  assert (forall i, i ∈ entry_id <$> batch path chunks (entropy w) -> i ∉ entry_id <$> old) as Hdisj.
  { intros i (e & -> & He)%list_elem_of_fmap. destruct (Hbk e He) as (k & Hk & ->).
    by eapply drawn_later_fresh. }
  assert (chroma (set_chroma (insert name (old ++ batch path chunks (entropy w)))
                    (set_entropy (entropy w + length chunks) w1))
          = <[name := old ++ batch path chunks (entropy w)]> (chroma w)) as Hchroma.
  { simpl. apply map_eq. intros other. destruct (decide (other = name)) as [->|Hne].
    - by rewrite !lookup_insert_eq.
    - rewrite !lookup_insert_ne by done. by apply Hother. }
  exists (set_chroma (insert name (old ++ batch path chunks (entropy w)))
            (set_entropy (entropy w + length chunks) w1)).
  split; [|split; [|split; [|split]]].
  - unfold add_documents, bind, read_file. rewrite Hfile, Hget, uuids_run.
    rewrite length_seq, Hent1. fold chunks.
    erewrite collection_add_ok; [reflexivity|exact Hname1|..].
    + by rewrite length_fmap, length_seq.
    + unfold embed_texts. by rewrite !length_fmap, length_seq.
    + unfold chunk_metadatas. by rewrite !length_fmap, !length_seq.
    + apply dimensions_agree_ok. eapply Forall_impl; [exact Hold|]. by intros e [].
    + apply ids_fresh_spec. rewrite <- Hids. done.
  - simpl. exact Hfiles1.
  - done.
  - exact Hchroma.
  - intros other es. rewrite Hchroma. simpl entropy.
    destruct (decide (other = name)) as [->|Hne].
    + rewrite lookup_insert_eq. intros [= <-]. split.
      * rewrite fmap_app. apply NoDup_app. split; [done|]. split; [|done].
        intros i Hi Hb. by apply (Hdisj i).
      * apply Forall_app. split; [|done]. eapply entries_ok_mono; [|exact Hold]. lia.
    + rewrite lookup_insert_ne by done. intros Hes. destruct (Hok other es Hes) as [? Hes_ok].
      split; [done|]. eapply entries_ok_mono; [|exact Hes_ok]. lia.
Qed.

(** C10. Ingestion is not idempotent: every call of [add_documents] draws
    new uuids, so a second call on the same file succeeds as well (no
    [DuplicateIdError]) and appends every chunk once more; the collection
    then holds the chunks twice, all entries under pairwise distinct ids. *)
Theorem add_documents_twice w path name content :
  store_ok w -> files w !! path = Some content ->
  exists w1 w2 first second,
    add_documents encode uuid_at path name w = (Ok tt, w1) /\
    add_documents encode uuid_at path name w1 = (Ok tt, w2) /\
    chroma w1 !! name = Some (default [] (chroma w !! name) ++ first) /\
    chroma w2 !! name = Some (default [] (chroma w !! name) ++ first ++ second) /\
    entry_document <$> first = split (lit "\n") content /\
    entry_document <$> second = split (lit "\n") content /\
    second <> [] /\
    NoDup (entry_id <$> default [] (chroma w !! name) ++ first ++ second).
Proof.
  intros Hok Hfile.
  destruct (add_documents_run w path name content Hok Hfile)
    as (w1 & Hrun1 & Hfiles1 & Hent1 & Hchroma1 & Hok1).
  rewrite <- Hfiles1 in Hfile.
  destruct (add_documents_run w1 path name content Hok1 Hfile)
    as (w2 & Hrun2 & _ & _ & Hchroma2 & Hok2).
  assert (chroma w1 !! name = Some (default [] (chroma w !! name)
            ++ batch path (split (lit "\n") content) (entropy w))) as Hname1.
  { by rewrite Hchroma1, lookup_insert_eq. }
  rewrite Hname1 in Hchroma2. simpl in Hchroma2.
  assert (chroma w2 !! name = Some (default [] (chroma w !! name)
            ++ batch path (split (lit "\n") content) (entropy w)
            ++ batch path (split (lit "\n") content) (entropy w1))) as Hname2.
  { by rewrite Hchroma2, lookup_insert_eq, <- app_assoc. }
  exists w1, w2, (batch path (split (lit "\n") content) (entropy w)),
    (batch path (split (lit "\n") content) (entropy w1)).
  repeat split; try done.
  - apply batch_fields.
  - apply batch_fields.
  - intros Hnil. pose proof (split_length_pos (lit "\n") content) as Hpos.
    destruct (batch_fields path (split (lit "\n") content) (entropy w1)) as (_ & Hdocs & _).
    rewrite Hnil in Hdocs. rewrite <- Hdocs in Hpos. simpl in Hpos. lia.
  - by apply (Hok2 name).
Qed.

End Ingest.

(** ** The streamed reply: [query_ollama_stream] *)

Section StreamFacts.

Import Ollama.
Context (json_loads : str -> option pyval).
Implicit Types (line : bytes) (lines rest pre : list bytes) (fragment acc : str)
  (fragments : list str) (out : console).

Local Abbreviation record := (Spec.record json_loads).
Local Abbreviation malformed := (Spec.malformed json_loads).
Local Abbreviation stream_view := (Spec.stream_view json_loads).

Lemma nonempty_true line : line <> [] -> nonempty line = true.
Proof. by destruct line. Qed.

Lemma read_lines_malformed line rest acc out :
  malformed line ->
  read_lines json_loads (line :: rest) acc out = read_lines json_loads rest acc out.
Proof.
  intros (Hne & data & Hdata & Hjson). simpl.
  rewrite (nonempty_true _ Hne). unfold bind, decode. rewrite Hdata.
  unfold ret at 1. by rewrite Hjson.
Qed.

Lemma read_lines_record line fragment rest acc out :
  record line fragment false ->
  read_lines json_loads (line :: rest) acc out =
    read_lines json_loads rest (acc ++ fragment) out.
Proof.
  intros (Hne & data & d & Hdata & Hjson & Hfrag & Hdone). simpl.
  rewrite (nonempty_true _ Hne). unfold bind, decode. rewrite Hdata.
  unfold ret at 1. rewrite Hjson. unfold py_get, ret. rewrite Hfrag. simpl.
  by rewrite Hdone.
Qed.

Lemma read_lines_done line fragment rest acc out :
  record line fragment true ->
  read_lines json_loads (line :: rest) acc out = (Ok (acc ++ fragment), out).
Proof.
  intros (Hne & data & d & Hdata & Hjson & Hfrag & Hdone). simpl.
  rewrite (nonempty_true _ Hne). unfold bind, decode. rewrite Hdata.
  unfold ret at 1. rewrite Hjson. unfold py_get, ret. rewrite Hfrag. simpl.
  by rewrite Hdone.
Qed.

(** Reading a whole reply gathers its fragments in order. *)
Lemma read_lines_view lines fragments finished :
  stream_view lines fragments finished ->
  forall acc out,
    read_lines json_loads lines acc out = (Ok (acc ++ concat fragments), out).
Proof.
  induction 1 as [|rest fragments finished _ IH|line rest fragments finished Hbad _ IH
                  |line fragment rest fragments finished Hrec _ IH|line fragment rest Hrec];
    intros acc out.
  - simpl. by rewrite app_nil_r.
  - simpl. apply IH.
  - rewrite read_lines_malformed by done. apply IH.
  - rewrite (read_lines_record _ fragment) by done. rewrite IH. simpl. by rewrite app_assoc.
  - rewrite (read_lines_done _ fragment) by done. simpl. by rewrite app_nil_r.
Qed.

(** Reading past a prefix with no done record continues with what follows. *)
Lemma read_lines_prefix pre fragments finished :
  stream_view pre fragments finished -> finished = false ->
  forall rest acc out,
    read_lines json_loads (pre ++ rest) acc out =
      read_lines json_loads rest (acc ++ concat fragments) out.
Proof.
  induction 1 as [|pre fragments finished _ IH|line pre fragments finished Hbad _ IH
                  |line fragment pre fragments finished Hrec _ IH|line fragment pre Hrec];
    intros Hfin rest acc out; try done.
  - simpl. by rewrite app_nil_r.
  - simpl. by apply IH.
  - rewrite <- app_comm_cons, read_lines_malformed by done. by apply IH.
  - rewrite <- app_comm_cons, (read_lines_record _ fragment) by done.
    rewrite IH by done. simpl. by rewrite app_assoc.
Qed.

(** What follows a done record is never read, whatever came before it. *)
Lemma read_lines_after_done line fragment :
  record line fragment true ->
  forall pre rest acc out,
    read_lines json_loads (pre ++ line :: rest) acc out =
      read_lines json_loads (pre ++ [line]) acc out.
Proof.
  intros Hrec pre. induction pre as [|l pre IH]; intros rest acc out.
  - simpl app. by rewrite !(read_lines_done _ fragment).
  - simpl. destruct (nonempty l); [|apply IH].
    unfold bind, decode. destruct (utf8_decode l) as [data|]; [|done]. simpl.
    destruct (json_loads data) as [chunk|]; [|apply IH].
    destruct (py_get chunk (lit "response") (PStr []) out) as [[v|e] out1]; [|done].
    destruct (iadd_str acc v out1) as [[acc'|e] out2]; [|done].
    destruct (py_get chunk (lit "done") (PBool false) out2) as [[dn|e] out3]; [|done].
    destruct (truthy dn); [done|apply IH].
Qed.

(** Not every bad line is skipped: [decode] stands before the [try], and
    the [except] clause names [json.JSONDecodeError] only. *)
Lemma read_lines_undecodable line rest acc out :
  line <> [] -> utf8_decode line = None ->
  read_lines json_loads (line :: rest) acc out = (Raise UnicodeDecodeError, out).
Proof.
  intros Hne Hdata. simpl. rewrite (nonempty_true _ Hne). unfold bind, decode.
  by rewrite Hdata.
Qed.

Lemma read_lines_not_object line data chunk rest acc out :
  line <> [] -> utf8_decode line = Some data -> json_loads data = Some chunk ->
  (forall d, chunk <> PDict d) ->
  read_lines json_loads (line :: rest) acc out = (Raise AttributeError, out).
Proof.
  intros Hne Hdata Hjson Hobj. simpl. rewrite (nonempty_true _ Hne). unfold bind, decode.
  rewrite Hdata. unfold ret at 1. rewrite Hjson.
  destruct chunk; try done. by destruct (Hobj d).
Qed.

(** The loop writes nothing to the console, however it ends. *)
Lemma read_lines_silent lines : forall acc out,
  snd (read_lines json_loads lines acc out) = out.
Proof.
  induction lines as [|l lines IH]; intros acc out; simpl; [done|].
  destruct (nonempty l); [|apply IH].
  unfold bind, decode. destruct (utf8_decode l) as [data|]; [|done]. simpl.
  destruct (json_loads data) as [chunk|]; [|apply IH].
  destruct chunk; simpl; try done.
  destruct (default (PStr []) (d !! lit "response")); simpl; try done.
  destruct (truthy _); [done|apply IH].
Qed.

Context (post : str -> response).

Lemma query_ok_status prompt out :
  (status_code (post prompt) < 400 \/ 600 <= status_code (post prompt))%Z ->
  query_ollama_stream json_loads post prompt out =
    read_lines json_loads (iter_lines (post prompt)) [] out.
Proof.
  intros Hstatus. unfold query_ollama_stream, bind, raise_for_status.
  destruct (_ && _)%Z eqn:Hs; [|done].
  apply andb_prop in Hs as [?%Z.leb_le ?%Z.ltb_lt]. lia.
Qed.

Lemma query_ollama_stream_silent prompt out :
  snd (query_ollama_stream json_loads post prompt out) = out.
Proof.
  unfold query_ollama_stream, bind, raise_for_status.
  destruct (_ && _)%Z; [done|]. apply read_lines_silent.
Qed.

(** C8. A record whose "done" is true ends the stream: nothing that
    follows it is read (the answer is that of the reply cut after the
    record), and when the lines before it are blank lines, malformed records
    and open records, the answer is their fragments in order followed by
    the text of the done record as the last fragment. *)
Theorem done_record_ends_stream prompt pre line fragment rest out :
  (status_code (post prompt) < 400 \/ 600 <= status_code (post prompt))%Z ->
  iter_lines (post prompt) = pre ++ line :: rest ->
  record line fragment true ->
  query_ollama_stream json_loads post prompt out =
    read_lines json_loads (pre ++ [line]) [] out /\
  forall fragments,
    stream_view pre fragments false ->
    query_ollama_stream json_loads post prompt out =
      (Ok (concat fragments ++ fragment), out).
Proof.
  intros Hstatus Hlines Hrec. rewrite query_ok_status, Hlines by done.
  split; [by eapply read_lines_after_done|].
  intros fragments Hpre.
  rewrite (read_lines_prefix _ _ _ Hpre eq_refl).
  by rewrite (read_lines_done _ fragment).
Qed.

(** C9, as the code has it.  A malformed record is skipped without a word:
    it is not fatal, nothing is written to the console for it, and the
    loop goes on with the next line; the answer is the concatenation of the
    fragments of the well-formed records read, up to the first one flagged
    done.  No call ever writes to the console. *)
Theorem malformed_records_skipped prompt fragments finished out :
  (status_code (post prompt) < 400 \/ 600 <= status_code (post prompt))%Z ->
  stream_view (iter_lines (post prompt)) fragments finished ->
  query_ollama_stream json_loads post prompt out = (Ok (concat fragments), out) /\
  forall prompt' out', snd (query_ollama_stream json_loads post prompt' out') = out'.
Proof.
  intros Hstatus Hview. split; [|apply query_ollama_stream_silent].
  rewrite query_ok_status by done. by rewrite (read_lines_view _ _ _ Hview).
Qed.

End StreamFacts.

(** ** The theorems at the sample data *)

Section AtSamples.

Import VectorDB Ollama Samples.

Lemma sample_encode_dimension text : length (sample_encode text) = 3%nat.
Proof. reflexivity. Qed.

Lemma sample_uuid_inj m n : sample_uuid m = sample_uuid n -> m = n.
Proof. unfold sample_uuid. intros [= H]%app_inv_head. lia. Qed.

Lemma sample_store_ok : store_ok sample_uuid 3 sample_world.
Proof. intros name es H. simpl in H. by rewrite lookup_empty in H. Qed.

Lemma sample_record_hi : record sample_loads line_hi (lit "Hi") false.
Proof.
  split; [done|]. exists line_hi, {[ lit "response" := PStr (lit "Hi") ]}.
  repeat split; reflexivity.
Qed.

Lemma sample_malformed : malformed sample_loads line_truncated.
Proof. split; [done|]. exists line_truncated. split; reflexivity. Qed.

Lemma sample_record_done : record sample_loads line_done (lit "!") true.
Proof.
  split; [done|].
  exists line_done, (<[lit "response" := PStr (lit "!")]> {[ lit "done" := PBool true ]}).
  repeat split; reflexivity.
Qed.

Lemma sample_prefix_view :
  stream_view sample_loads [line_hi; []; line_truncated] [lit "Hi"] false.
Proof.
  apply view_record; [apply sample_record_hi|].
  apply view_blank, view_malformed; [apply sample_malformed|apply view_end].
Qed.

Lemma sample_reply_view :
  stream_view sample_loads (iter_lines sample_reply) [lit "Hi"; lit "!"] true.
Proof.
  apply view_record; [apply sample_record_hi|].
  apply view_blank, view_malformed; [apply sample_malformed|].
  apply view_done, sample_record_done.
Qed.

End AtSamples.

(** C7 at the sample store: open, insert one entry through the handle, open
    again and list. *)
Lemma get_collection_idempotent_witness :
  exists w1 w2 h2,
    VectorDB.get_collection VectorDB.default_collection Samples.sample_world
      = (Ok (VectorDB.Handle VectorDB.default_collection), w1) /\
    VectorDB.collection_add (VectorDB.Handle VectorDB.default_collection)
      [lit "A"] [[1; 2; 3]%Z] [∅] [lit "id-1"] w1 = (Ok tt, w2) /\
    VectorDB.get_collection VectorDB.default_collection w2 = (Ok h2, w2) /\
    VectorDB.collection_get h2 w2 = (Ok [VectorDB.Entry (lit "id-1") (lit "A") [1; 2; 3]%Z ∅], w2).
Proof.
  destruct (get_collection_idempotent Samples.sample_world VectorDB.default_collection)
    as (h & w1 & Hopen & _ & Hadd).
  set (opened := VectorDB.set_chroma (insert VectorDB.default_collection []) Samples.sample_world).
  set (filled := VectorDB.set_chroma (insert VectorDB.default_collection
                   [VectorDB.Entry (lit "id-1") (lit "A") [1; 2; 3]%Z ∅]) opened).
  change (VectorDB.get_collection VectorDB.default_collection Samples.sample_world)
    with (@Ok VectorDB.Collection (VectorDB.Handle VectorDB.default_collection), opened) in Hopen.
  injection Hopen as <- <-.
  destruct (Hadd [lit "A"] [[1; 2; 3]%Z] [∅] [lit "id-1"] filled eq_refl)
    as (h2 & old & Hopen2 & Hold & Hget).
  change (VectorDB.get_collection VectorDB.default_collection filled)
    with (@Ok VectorDB.Collection (VectorDB.Handle VectorDB.default_collection), filled) in Hopen2.
  injection Hopen2 as <-.
  change (VectorDB.collection_get (VectorDB.Handle VectorDB.default_collection) opened)
    with (@Ok (list (VectorDB.entry Z)) [], opened) in Hold.
  injection Hold as <-.
  exists opened, filled, (VectorDB.Handle VectorDB.default_collection).
  split; [reflexivity|]. split; [reflexivity|]. split; [reflexivity|]. exact Hget.
Defined.

(** C10 at the file [notes.txt] of the samples, ingested twice. *)
Lemma add_documents_twice_witness :
  VectorDB.files Samples.sample_world !! lit "notes.txt" = Some (lit "A\n\nB\n") /\
  exists w1 w2 first second,
    VectorDB.add_documents Samples.sample_encode Samples.sample_uuid
      (lit "notes.txt") VectorDB.default_collection Samples.sample_world = (Ok tt, w1) /\
    VectorDB.add_documents Samples.sample_encode Samples.sample_uuid
      (lit "notes.txt") VectorDB.default_collection w1 = (Ok tt, w2) /\
    VectorDB.chroma w2 !! VectorDB.default_collection = Some (first ++ second) /\
    VectorDB.entry_document <$> first = [lit "A"; []; lit "B"; []] /\
    VectorDB.entry_document <$> second = [lit "A"; []; lit "B"; []] /\
    NoDup (VectorDB.entry_id <$> first ++ second).
Proof.
  split; [reflexivity|].
  destruct (add_documents_twice Samples.sample_encode Samples.sample_uuid 3
              sample_encode_dimension sample_uuid_inj Samples.sample_world
              (lit "notes.txt") VectorDB.default_collection (lit "A\n\nB\n")
              sample_store_ok eq_refl)
    as (w1 & w2 & first & second & Hrun1 & Hrun2 & _ & Hboth & Hfirst & Hsecond & _ & Hids).
  exists w1, w2, first, second. repeat split; done.
Defined.

(** C3 at a file with an empty line and a final newline: the collection
    receives four chunks, two of them empty. *)
Example add_documents_keeps_blank_lines :
  exists entries w,
    (_ <- VectorDB.add_documents Samples.sample_encode Samples.sample_uuid
            (lit "notes.txt") VectorDB.default_collection;;
     collection <- VectorDB.get_collection VectorDB.default_collection;;
     VectorDB.collection_get collection) Samples.sample_world = (Ok entries, w) /\
    VectorDB.entry_document <$> entries = [lit "A"; []; lit "B"; []].
Proof. eexists _, _. split; reflexivity. Qed.

(** C8 at the sample reply: the stray byte after the done record is never
    decoded. *)
Lemma done_record_ends_stream_witness :
  Ollama.query_ollama_stream Samples.sample_loads Samples.sample_post (lit "hello") []
    = (Ok (lit "Hi!"), []).
Proof.
  destruct (done_record_ends_stream Samples.sample_loads Samples.sample_post (lit "hello")
              [Samples.line_hi; []; Samples.line_truncated] Samples.line_done (lit "!")
              [[255]] [] (or_introl eq_refl) eq_refl sample_record_done)
    as [_ Hanswer].
  rewrite (Hanswer [lit "Hi"] sample_prefix_view). reflexivity.
Defined.

(** C9, as the spec words it, fails: the truncated record of the sample
    reply is skipped, and the call ends with the console as it was, so
    nothing has been logged for it. *)
Lemma malformed_record_not_logged :
  malformed Samples.sample_loads Samples.line_truncated /\
  Samples.line_truncated ∈ Ollama.iter_lines (Samples.sample_post (lit "hello")) /\
  Ollama.query_ollama_stream Samples.sample_loads Samples.sample_post (lit "hello") []
    = (Ok (lit "Hi!"), []).
Proof.
  split; [apply sample_malformed|]. split; [|reflexivity].
  simpl. apply list_elem_of_In. simpl. tauto.
Qed.

(** C9 at the sample reply, with a line already on the console. *)
Lemma malformed_records_skipped_witness :
  snd (Ollama.query_ollama_stream Samples.sample_loads Samples.sample_post (lit "hello")
         [lit "Generating LLaMA 3 response..."])
    = [lit "Generating LLaMA 3 response..."] /\
  fst (Ollama.query_ollama_stream Samples.sample_loads Samples.sample_post (lit "hello")
         [lit "Generating LLaMA 3 response..."])
    = Ok (lit "Hi" ++ lit "!").
Proof.
  destruct (malformed_records_skipped Samples.sample_loads Samples.sample_post (lit "hello")
              [lit "Hi"; lit "!"] true [lit "Generating LLaMA 3 response..."]
              (or_introl eq_refl) sample_reply_view)
    as [Hanswer _].
  rewrite Hanswer. split; reflexivity.
Defined.

(** * Further properties *)

(** ** Lines and paragraphs *)

Section LineFacts.

Implicit Types (s cur piece : str) (c : N).

Lemma split_char_length c s : forall cur,
  length (split_scan [c] s 0 cur) = S (count_occ N.eq_dec s c).
Proof.
  induction s as [|x s IH]; intros cur; [done|].
  cbn [split_scan startswith length Nat.sub count_occ].
  rewrite andb_true_r. destruct (N.eq_dec x c) as [->|Hne].
  - rewrite N.eqb_refl. simpl. by rewrite IH.
  - destruct (N.eqb_spec c x) as [->|_]; [done|]. apply IH.
Qed.

Lemma occurs_char c piece : c ∈ piece -> occurs [c] piece.
Proof. intros (l1 & l2 & ->)%list_elem_of_split. by exists l1, l2. Qed.

Lemma visible_app s1 s2 : visible (s1 ++ s2) = visible s1 ++ visible s2.
Proof. apply List.filter_app. Qed.

Lemma visible_blank s : blank s = true -> visible s = [].
Proof.
  induction s as [|c s IH]; [done|]. simpl.
  intros [Hc Hs]%andb_prop. rewrite Hc. simpl. by apply IH.
Qed.

Lemma visible_trims piece chunk : trims piece chunk -> visible piece = visible chunk.
Proof.
  intros (ws1 & ws2 & -> & Hws1 & Hws2 & _).
  rewrite !visible_app, (visible_blank ws1), (visible_blank ws2) by done.
  by rewrite app_nil_r.
Qed.

Lemma visible_join sep (pieces : list str) :
  blank sep = true -> visible (join sep pieces) = concat (visible <$> pieces).
Proof.
  intros Hsep. induction pieces as [|p [|q rest] IH]; [done| |].
  - simpl. by rewrite app_nil_r.
  - rewrite join_cons by done. rewrite !visible_app, (visible_blank sep), IH by done. done.
Qed.

Lemma visible_concat (chunks : list str) :
  visible (concat chunks) = concat (visible <$> chunks).
Proof.
  induction chunks as [|c chunks IH]; [done|].
  simpl. by rewrite visible_app, IH.
Qed.

Lemma visible_paragraphs (pieces : list str) :
  concat (visible <$> (strip <$> List.filter (fun chunk => nonempty (strip chunk)) pieces))
  = concat (visible <$> pieces).
Proof.
  induction pieces as [|p rest IH]; [done|]. cbn [List.filter].
  rewrite nonempty_strip. destruct (blank p) eqn:Hb; cbn [negb].
  - rewrite fmap_cons. cbn [concat]. by rewrite visible_blank.
  - rewrite !fmap_cons. cbn [concat]. rewrite IH. f_equal.
    symmetry. by apply visible_trims, strip_trims.
Qed.

Lemma lstrip_head s a : head s = Some a -> isspace a = false -> lstrip s = s.
Proof. destruct s as [|x s]; [done|]. intros [= ->] Ha. simpl. by rewrite Ha. Qed.

Lemma trimmed_strip s : trimmed s -> strip s = s.
Proof.
  intros [(a & Ha & Hsa) (b & Hb & Hsb)]. unfold strip, rstrip.
  rewrite (lstrip_head s a) by done.
  rewrite (lstrip_head (reverse s) b); [apply reverse_involutive| |done].
  by rewrite head_reverse.
Qed.

Lemma trimmed_not_blank s : trimmed s -> blank s = false.
Proof.
  intros [(a & Ha & Hsa) _]. destruct s as [|x s]; [done|].
  injection Ha as ->. simpl. by rewrite Hsa.
Qed.

Lemma trimmed_last s : trimmed s -> s <> [] /\ last s <> Some newline.
Proof.
  intros [(a & Ha & _) (b & Hb & Hsb)]. split; [by destruct s|].
  rewrite Hb. intros [= ->]. done.
Qed.

Lemma trims_no_sep sep piece chunk :
  trims piece chunk -> ~ occurs sep piece -> ~ occurs sep chunk.
Proof.
  intros (ws1 & ws2 & -> & _) Hno (l1 & l2 & ->). apply Hno.
  exists (ws1 ++ l1), (l2 ++ ws2). by rewrite <- !app_assoc.
Qed.

(** Scanning a chunk that ends in no line feed and holds no blank line, up
    to the separator after it. *)
Lemma split_scan_through piece : forall cur rest,
  piece <> [] -> last piece <> Some newline -> ~ occurs [newline; newline] piece ->
  split_scan [newline; newline] (piece ++ newline :: newline :: rest) 0 cur
  = (reverse cur ++ piece) :: split_scan [newline; newline] rest 0 [].
Proof.
  induction piece as [|x [|y piece] IH]; intros cur rest Hne Hlast Hno; [done| |].
  - assert (x <> newline) as Hx by (intros ->; by apply Hlast).
    change ([x] ++ newline :: newline :: rest) with (x :: newline :: newline :: rest).
    cbn [split_scan startswith length Nat.sub].
    destruct (N.eqb_spec newline x) as [<-|_]; [done|]. cbn [andb].
    rewrite !N.eqb_refl. cbn [andb]. by rewrite reverse_cons.
  - change ((x :: y :: piece) ++ newline :: newline :: rest)
      with (x :: (y :: piece) ++ newline :: newline :: rest).
    rewrite split_scan_step by done.
    assert (startswith [newline; newline] (x :: (y :: piece) ++ newline :: newline :: rest)
            = false) as ->.
    { cbn [startswith app]. destruct (N.eqb_spec newline x) as [<-|]; [|done].
      destruct (N.eqb_spec newline y) as [<-|]; [|done].
      destruct Hno. by exists [], piece. }
    rewrite IH; [by rewrite reverse_cons, <- app_assoc|done|done|].
    intros (l1 & l2 & Heq). apply Hno. exists (x :: l1), l2. by rewrite Heq.
Qed.

Lemma split_scan_last piece : forall cur,
  ~ occurs [newline; newline] piece ->
  split_scan [newline; newline] piece 0 cur = [reverse cur ++ piece].
Proof.
  induction piece as [|x piece IH]; intros cur Hno.
  - simpl. by rewrite app_nil_r.
  - rewrite split_scan_step by done.
    destruct (startswith _ _) eqn:Hst.
    + apply startswith_inv in Hst. destruct Hno. eexists [], _. exact Hst.
    + rewrite IH; [by rewrite reverse_cons, <- app_assoc|].
      intros (l1 & l2 & Heq). apply Hno. exists (x :: l1), l2. by rewrite Heq.
Qed.

(** Splitting what [join] made of trimmed, separator-free chunks gives the
    chunks back. *)
Lemma split_join_chunks (chunks : list str) :
  chunks <> [] ->
  Forall (fun chunk => trimmed chunk /\ ~ occurs [newline; newline] chunk) chunks ->
  split [newline; newline] (join [newline; newline] chunks) = chunks.
Proof.
  unfold split. induction chunks as [|c [|d rest] IH]; intros Hne Hall; [done| |].
  - apply Forall_cons in Hall as [[_ Hno] _]. simpl. by rewrite split_scan_last.
  - apply Forall_cons in Hall as [[Htrim Hno] Hrest].
    destruct (trimmed_last c Htrim) as [Hc Hlast].
    rewrite join_cons by done.
    change ([newline; newline] ++ join [newline; newline] (d :: rest))
      with (newline :: newline :: join [newline; newline] (d :: rest)).
    rewrite split_scan_through by done. by rewrite IH.
Qed.

Lemma paragraphs_of_chunks (chunks : list str) :
  Forall trimmed chunks ->
  strip <$> List.filter (fun chunk => nonempty (strip chunk)) chunks = chunks.
Proof.
  induction 1 as [|c chunks Hc _ IH]; [done|]. cbn [List.filter].
  rewrite nonempty_strip, (trimmed_not_blank c Hc). cbn [negb].
  by rewrite fmap_cons, IH, trimmed_strip.
Qed.

Lemma paragraphs_good (pieces : list str) :
  Forall (fun piece => ~ occurs [newline; newline] piece) pieces ->
  Forall (fun chunk => trimmed chunk /\ ~ occurs [newline; newline] chunk)
    (strip <$> List.filter (fun chunk => nonempty (strip chunk)) pieces).
Proof.
  induction 1 as [|p pieces Hp _ IH]; [constructor|]. cbn [List.filter].
  rewrite nonempty_strip. destruct (blank p) eqn:Hb; cbn [negb]; [done|].
  rewrite fmap_cons. constructor; [|done].
  pose proof (strip_trims p Hb) as Htrims. split; [|by eapply trims_no_sep].
  by destruct Htrims as (? & ? & _ & _ & _ & ?).
Qed.

End LineFacts.

Section ChunkerMore.

Import VectorDB.
Context {F : Type}.
Implicit Types (w : world F) (path text : str).

Lemma load_text_inv w w' path (chunks : list str) :
  load_text path w = (Ok chunks, w') ->
  exists text,
    files w !! path = Some text /\ w' = w /\
    chunks = strip <$> List.filter (fun chunk => nonempty (strip chunk)) (split (lit "\n\n") text).
Proof.
  destruct (files w !! path) as [text|] eqn:Hfile.
  - rewrite (load_text_run _ _ _ Hfile). intros [= <- <-]. by exists text.
  - unfold load_text, bind, read_file. by rewrite Hfile.
Qed.

(** X1. [load_text] loses nothing but whitespace: the characters of the
    chunks that are not whitespace are those of the text, in the same order. *)
Theorem load_text_keeps_visible w path text :
  files w !! path = Some text ->
  exists chunks,
    load_text path w = (Ok chunks, w) /\
    visible (concat chunks) = visible text.
Proof.
  intros Hfile. eexists. split; [by apply load_text_run|].
  rewrite <- (join_split (lit "\n\n") text) at 2 by done.
  by rewrite visible_concat, visible_paragraphs, visible_join.
Qed.

(** X2. The chunks of [load_text] are stable: a file that holds them joined
    by blank lines is chunked into the same chunks again. *)
Theorem load_text_rechunk w w' path path' (chunks : list str) :
  load_text path w = (Ok chunks, w') ->
  files w !! path' = Some (join (lit "\n\n") chunks) ->
  load_text path' w = (Ok chunks, w).
Proof.
  intros (text & _ & _ & Hchunks)%load_text_inv Hfile.
  rewrite (load_text_run _ _ _ Hfile). do 2 f_equal.
  assert (Forall (fun chunk => trimmed chunk /\ ~ occurs [newline; newline] chunk) chunks)
    as Hgood.
  { rewrite Hchunks. apply paragraphs_good. by apply (split_no_sep (lit "\n\n")). }
  destruct chunks as [|c chunks]; [done|].
  change (lit "\n\n") with [newline; newline].
  rewrite split_join_chunks by done.
  apply paragraphs_of_chunks. eapply Forall_impl; [exact Hgood|]. by intros ? [].
Qed.

End ChunkerMore.

(** X1 at the file [abc.txt] of the samples. *)
Lemma load_text_keeps_visible_witness :
  VectorDB.files Samples.sample_world !! lit "abc.txt" = Some (lit "A\n\nB\n\nC") /\
  exists chunks,
    VectorDB.load_text (lit "abc.txt") Samples.sample_world = (Ok chunks, Samples.sample_world) /\
    visible (concat chunks) = lit "ABC".
Proof.
  split; [reflexivity|].
  destruct (load_text_keeps_visible Samples.sample_world (lit "abc.txt") _ eq_refl)
    as (chunks & Hrun & Hvisible).
  exists chunks. split; [done|]. rewrite Hvisible. reflexivity.
Defined.

(** X2 at the file [abc.txt] of the samples, which holds its own chunks
    joined by blank lines. *)
Lemma load_text_rechunk_witness :
  VectorDB.load_text (lit "abc.txt") Samples.sample_world
    = (Ok [lit "A"; lit "B"; lit "C"], Samples.sample_world) /\
  VectorDB.files Samples.sample_world !! lit "abc.txt"
    = Some (join (lit "\n\n") [lit "A"; lit "B"; lit "C"]).
Proof.
  split; [|reflexivity].
  apply (load_text_rechunk Samples.sample_world Samples.sample_world (lit "abc.txt")
           (lit "abc.txt") [lit "A"; lit "B"; lit "C"]); reflexivity.
Defined.

(** ** More on the store and on ingestion *)

Section StoreFrame.

Import VectorDB.
Context {F : Type}.
Implicit Types (w : world F) (name path : str) (c : Collection).

(** X3. Opening a collection never loses data: [get_collection] returns a
    handle, leaves the files, the uuids drawn and every collection that
    exists as they are, and adds nothing but the named collection, empty,
    when it was absent. *)
Theorem get_collection_keeps_store w name :
  exists w',
    get_collection name w = (Ok (Handle name), w') /\
    files w' = files w /\ entropy w' = entropy w /\
    (forall other es, chroma w !! other = Some es -> chroma w' !! other = Some es) /\
    (forall other, other <> name -> chroma w' !! other = chroma w !! other) /\
    (chroma w !! name = None -> chroma w' !! name = Some []).
Proof.
  destruct (get_collection_run w name) as (w' & Hrun & Hname & Hsame & Hother & Hfiles & Hent).
  exists w'. repeat split; try done.
  - intros other es Hes. destruct (decide (other = name)) as [->|Hne].
    + by rewrite (Hsame es Hes).
    + by rewrite Hother.
  - intros Habsent. by rewrite Hname, Habsent.
Qed.

Lemma collection_add_frame c documents embeddings metadatas ids w :
  files (snd (collection_add c documents embeddings metadatas ids w)) = files w /\
  entropy (snd (collection_add c documents embeddings metadatas ids w)) = entropy w /\
  (forall other, other <> coll_name c ->
     chroma (snd (collection_add c documents embeddings metadatas ids w)) !! other
     = chroma w !! other) /\
  (forall es, chroma w !! coll_name c = Some es ->
     exists added,
       chroma (snd (collection_add c documents embeddings metadatas ids w)) !! coll_name c
       = Some (es ++ added)).
Proof.
  unfold collection_add.
  destruct (chroma w !! coll_name c) as [old|] eqn:Hold; [|done].
  repeat case_match; simpl; (split; [done|]); (split; [done|]);
    (split; [try done; intros other Hne; by rewrite lookup_insert_ne|]);
    intros es [= <-].
  1-3: exists []; by rewrite app_nil_r.
  eexists. by rewrite lookup_insert_eq.
Qed.

Context (encode : str -> list F) (uuid_at : nat -> str).

Lemma add_documents_missing w path name :
  files w !! path = None ->
  add_documents encode uuid_at path name w = (Raise FileNotFoundError, w).
Proof. intros Hfile. unfold add_documents, bind, read_file. by rewrite Hfile. Qed.

Lemma add_documents_unfold w path name content :
  files w !! path = Some content ->
  exists w1,
    get_collection name w = (Ok (Handle name), w1) /\
    add_documents encode uuid_at path name w =
      collection_add (Handle name) (split (lit "\n") content)
        (embed_texts encode (split (lit "\n") content))
        (chunk_metadatas path (split (lit "\n") content))
        (uuid_at <$> seq (entropy w1) (length (split (lit "\n") content)))
        (set_entropy (entropy w1 + length (split (lit "\n") content)) w1).
Proof.
  intros Hfile.
  destruct (get_collection_run w name) as (w1 & Hget & _).
  exists w1. split; [done|].
  unfold add_documents, bind, read_file. rewrite Hfile, Hget, uuids_run.
  by rewrite length_seq.
Qed.

(** X4. [add_documents] only ever appends to the named collection: whatever
    the outcome, the files are as before, every other collection is as
    before, and the entries the named collection had are still there, in
    place, before anything added. *)
Theorem add_documents_frame w path name :
  files (snd (add_documents encode uuid_at path name w)) = files w /\
  (forall other, other <> name ->
     chroma (snd (add_documents encode uuid_at path name w)) !! other = chroma w !! other) /\
  (forall es, chroma w !! name = Some es ->
     exists added,
       chroma (snd (add_documents encode uuid_at path name w)) !! name = Some (es ++ added)).
Proof.
  destruct (files w !! path) as [content|] eqn:Hfile.
  2:{ rewrite (add_documents_missing _ _ _ Hfile). simpl.
      split; [done|]. split; [done|].
      intros es ->. exists []. by rewrite app_nil_r. }
  destruct (add_documents_unfold w path name content Hfile) as (w1 & Hget & ->).
  destruct (get_collection_run w name)
    as (w1' & Hget' & Hname & _ & Hother & Hfiles & _).
  rewrite Hget in Hget'. injection Hget' as <-.
  match goal with |- context [collection_add ?c ?d ?e ?m ?i ?w0] =>
    destruct (collection_add_frame c d e m i w0) as (Hf & _ & Ho & Hn) end.
  split; [by rewrite Hf|]. split.
  - intros other Hne. rewrite Ho by done. simpl. by apply Hother.
  - intros es Hes. apply Hn. simpl. by rewrite Hname, Hes.
Qed.

End StoreFrame.

Section IngestMore.

Import VectorDB.
Context {F : Type} (encode : str -> list F) (uuid_at : nat -> str) (dimension : nat).
Hypothesis encode_dimension : forall text, length (encode text) = dimension.
Hypothesis uuid_at_inj : forall m n, uuid_at m = uuid_at n -> m = n.
Implicit Types (w : world F) (name path content : str).

Local Abbreviation store_ok := (Spec.store_ok uuid_at dimension).
Local Abbreviation batch := (Spec.batch encode uuid_at).

(** What a successful call appends, by name. *)
Lemma add_documents_appends w path name content :
  store_ok w -> files w !! path = Some content ->
  exists w',
    add_documents encode uuid_at path name w = (Ok tt, w') /\
    chroma w' !! name =
      Some (default [] (chroma w !! name)
            ++ batch path (split (lit "\n") content) (entropy w)) /\
    store_ok w'.
Proof.
  intros Hok Hfile.
  destruct (add_documents_run encode uuid_at dimension encode_dimension uuid_at_inj
              w path name content Hok Hfile) as (w' & Hrun & _ & _ & Hchroma & Hok').
  exists w'. split; [done|]. split; [|done]. by rewrite Hchroma, lookup_insert_eq.
Qed.

(** On a store that [add_documents] built, a call fails only when the
    file is missing: then it raises [FileNotFoundError] and leaves the world
    untouched (no collection is created, no uuid drawn); otherwise it
    succeeds. *)
Lemma add_documents_outcome w path name :
  store_ok w ->
  (files w !! path = None /\
   add_documents encode uuid_at path name w = (Raise FileNotFoundError, w)) \/
  (exists content w',
     files w !! path = Some content /\
     add_documents encode uuid_at path name w = (Ok tt, w')).
Proof.
  intros Hok. destruct (files w !! path) as [content|] eqn:Hfile.
  - right. destruct (add_documents_appends w path name content Hok Hfile) as (w' & Hrun & _).
    by exists content, w'.
  - left. split; [done|]. by apply add_documents_missing.
Qed.

(** [add_documents] keeps the store consistent, whatever the outcome:
    in every collection the ids stay pairwise distinct, every id is one of
    the uuids drawn so far and every vector has the embedder's dimension. *)
Lemma add_documents_keeps_store_ok w path name :
  store_ok w -> store_ok (snd (add_documents encode uuid_at path name w)).
Proof.
  intros Hok. destruct (files w !! path) as [content|] eqn:Hfile.
  - destruct (add_documents_appends w path name content Hok Hfile) as (w' & -> & _ & Hok').
    done.
  - by rewrite (add_documents_missing _ _ _ _ _ Hfile).
Qed.

(** X5. One document per line, blank ones included: a successful call
    appends as many entries as the file has line feeds, plus one.  An empty
    file thus adds one entry, whose document is empty. *)
Theorem add_documents_counts_lines w path name content :
  store_ok w -> files w !! path = Some content ->
  exists w' added,
    add_documents encode uuid_at path name w = (Ok tt, w') /\
    chroma w' !! name = Some (default [] (chroma w !! name) ++ added) /\
    length added = S (count_occ N.eq_dec content newline) /\
    (content = [] -> entry_document <$> added = [[]]).
Proof.
  intros Hok Hfile.
  destruct (add_documents_appends w path name content Hok Hfile) as (w' & Hrun & Hname & _).
  exists w', (batch path (split (lit "\n") content) (entropy w)).
  destruct (batch_fields encode uuid_at path (split (lit "\n") content) (entropy w))
    as (_ & Hdocs & _).
  split; [done|]. split; [done|]. split.
  - rewrite <- (length_fmap entry_document), Hdocs. apply split_char_length.
  - intros ->. by rewrite Hdocs.
Qed.

(** X6. Ingestion is lossless: the documents a call appends, joined by line
    feeds, are the text of the file, and no document holds a line feed. *)
Theorem add_documents_round_trip w path name content :
  store_ok w -> files w !! path = Some content ->
  exists w' added,
    add_documents encode uuid_at path name w = (Ok tt, w') /\
    chroma w' !! name = Some (default [] (chroma w !! name) ++ added) /\
    join (lit "\n") (entry_document <$> added) = content /\
    Forall (fun e => newline ∉ entry_document e) added.
Proof.
  intros Hok Hfile.
  destruct (add_documents_appends w path name content Hok Hfile) as (w' & Hrun & Hname & _).
  exists w', (batch path (split (lit "\n") content) (entropy w)).
  destruct (batch_fields encode uuid_at path (split (lit "\n") content) (entropy w))
    as (_ & Hdocs & _).
  split; [done|]. split; [done|]. split.
  - rewrite Hdocs. by apply join_split.
  - apply (Forall_fmap entry_document (fun d : str => newline ∉ d)).
    rewrite Hdocs. eapply Forall_impl; [by apply (split_no_sep (lit "\n"))|].
    intros piece Hno Hin. by apply Hno, occurs_char.
Qed.

Lemma batch_lookup path (chunks : list str) first i line :
  chunks !! i = Some line ->
  batch path chunks first !! i
  = Some (Entry (uuid_at (first + i)) line (encode line) (chunk_metadata path i)).
Proof.
  intros Hline. pose proof (lookup_lt_Some _ _ _ Hline) as Hlt.
  destruct (batch_fields encode uuid_at path chunks first) as (Hids & Hdocs & Hvecs & Hmetas).
  destruct (lookup_lt_is_Some_2 (batch path chunks first) i) as [e He].
  { by rewrite <- (length_fmap entry_document), Hdocs. }
  rewrite He. f_equal.
  apply (f_equal (fun l => l !! i)) in Hids, Hdocs, Hvecs, Hmetas.
  unfold chunk_metadatas in Hmetas.
  rewrite !list_lookup_fmap, He, lookup_seq_lt in Hids by done.
  rewrite !list_lookup_fmap, He, Hline in Hdocs.
  rewrite !list_lookup_fmap, He, Hline in Hvecs.
  rewrite !list_lookup_fmap, He, lookup_seq_lt in Hmetas by done.
  destruct e. simpl in *. by simplify_eq.
Qed.

(** X7. The arrays of a call are aligned by line: the entry appended for
    line [i] of the file holds that line as its document, the vector of that
    very line, the metadata [{"source": file, "chunk_index": i}] and the
    [i]-th uuid drawn by the call; [chunk_index] restarts at 0 with every
    call. *)
Theorem add_documents_aligned w path name content i line :
  store_ok w -> files w !! path = Some content ->
  split (lit "\n") content !! i = Some line ->
  exists w' entries,
    add_documents encode uuid_at path name w = (Ok tt, w') /\
    chroma w' !! name = Some entries /\
    entries !! (length (default [] (chroma w !! name)) + i)%nat
    = Some (Entry (uuid_at (entropy w + i)) line (encode line) (chunk_metadata path i)).
Proof.
  intros Hok Hfile Hline.
  destruct (add_documents_appends w path name content Hok Hfile) as (w' & Hrun & Hname & _).
  eexists w', _. split; [done|]. split; [done|].
  rewrite lookup_app_r by lia. rewrite Nat.add_comm, Nat.add_sub.
  by apply batch_lookup.
Qed.

End IngestMore.

(** X5 at the file [notes.txt] of the samples: three line feeds, four
    entries. *)
Lemma add_documents_counts_lines_witness :
  VectorDB.files Samples.sample_world !! lit "notes.txt" = Some (lit "A\n\nB\n") /\
  exists w' added,
    VectorDB.add_documents Samples.sample_encode Samples.sample_uuid
      (lit "notes.txt") VectorDB.default_collection Samples.sample_world = (Ok tt, w') /\
    VectorDB.chroma w' !! VectorDB.default_collection = Some added /\
    length added = 4%nat.
Proof.
  split; [reflexivity|].
  destruct (add_documents_counts_lines Samples.sample_encode Samples.sample_uuid 3
              sample_encode_dimension sample_uuid_inj Samples.sample_world
              (lit "notes.txt") VectorDB.default_collection (lit "A\n\nB\n")
              sample_store_ok eq_refl)
    as (w' & added & Hrun & Hname & Hlen & _).
  exists w', added. split; [done|]. split; [exact Hname|exact Hlen].
Defined.

(** X6 at the file [notes.txt] of the samples. *)
Lemma add_documents_round_trip_witness :
  exists w' added,
    VectorDB.add_documents Samples.sample_encode Samples.sample_uuid
      (lit "notes.txt") VectorDB.default_collection Samples.sample_world = (Ok tt, w') /\
    VectorDB.chroma w' !! VectorDB.default_collection = Some added /\
    join (lit "\n") (VectorDB.entry_document <$> added) = lit "A\n\nB\n".
Proof.
  destruct (add_documents_round_trip Samples.sample_encode Samples.sample_uuid 3
              sample_encode_dimension sample_uuid_inj Samples.sample_world
              (lit "notes.txt") VectorDB.default_collection (lit "A\n\nB\n")
              sample_store_ok eq_refl)
    as (w' & added & Hrun & Hname & Hjoin & _).
  exists w', added. split; [done|]. split; [exact Hname|exact Hjoin].
Defined.

(** X7 at the third line of the file [notes.txt] of the samples. *)
Lemma add_documents_aligned_witness :
  split (lit "\n") (lit "A\n\nB\n") !! 2%nat = Some (lit "B") /\
  exists w' entries,
    VectorDB.add_documents Samples.sample_encode Samples.sample_uuid
      (lit "notes.txt") VectorDB.default_collection Samples.sample_world = (Ok tt, w') /\
    VectorDB.chroma w' !! VectorDB.default_collection = Some entries /\
    entries !! 2%nat
    = Some (VectorDB.Entry (Samples.sample_uuid 2) (lit "B") (Samples.sample_encode (lit "B"))
              (chunk_metadata (lit "notes.txt") 2)).
Proof.
  split; [reflexivity|].
  apply (add_documents_aligned Samples.sample_encode Samples.sample_uuid 3
           sample_encode_dimension sample_uuid_inj Samples.sample_world
           (lit "notes.txt") VectorDB.default_collection (lit "A\n\nB\n") 2 (lit "B")
           sample_store_ok eq_refl eq_refl).
Defined.

(** ** More on the streamed reply *)

Section StreamMore.

Import Ollama.
Context (json_loads : str -> option pyval).
Implicit Types (line : bytes) (lines rest pre : list bytes) (acc : str) (out : console).

Local Abbreviation stream_view := (Spec.stream_view json_loads).
Local Abbreviation fatal := (Further.fatal json_loads).

Lemma read_lines_fatal line e rest acc out :
  fatal line e -> read_lines json_loads (line :: rest) acc out = (Raise e, out).
Proof.
  intros [l Hne Hdata|l data chunk Hne Hdata Hjson Hobj|l data d value Hne Hdata Hjson Hval Htext].
  - by apply read_lines_undecodable.
  - by eapply read_lines_not_object.
  - simpl. rewrite (nonempty_true _ Hne). unfold bind, decode. rewrite Hdata.
    unfold ret at 1. rewrite Hjson. unfold py_get, ret. rewrite Hval. simpl.
    destruct value; try done. by destruct (Htext s).
Qed.


(** The outcome of the loop does not depend on what the console holds. *)
Lemma read_lines_console lines : forall acc out out',
  read_lines json_loads lines acc out = (fst (read_lines json_loads lines acc out'), out).
Proof.
  induction lines as [|l lines IH]; intros acc out out'; simpl; [done|].
  destruct (nonempty l); [|apply IH].
  unfold bind, decode. destruct (utf8_decode l) as [data|]; [|done]. simpl.
  destruct (json_loads data) as [chunk|]; [|apply IH].
  destruct chunk; simpl; try done.
  destruct (default (PStr []) (d !! lit "response")); simpl; try done.
  destruct (truthy _); [done|apply IH].
Qed.

Context (post : str -> response).

Lemma query_console prompt out out' :
  query_ollama_stream json_loads post prompt out
  = (fst (query_ollama_stream json_loads post prompt out'), out).
Proof.
  unfold query_ollama_stream, bind, raise_for_status.
  destruct (_ && _)%Z; [done|]. apply read_lines_console.
Qed.

(** X8. A line the loop cannot digest aborts the call: after any blank
    lines, malformed records and open records, a line that is not UTF-8
    raises [UnicodeDecodeError], a JSON value that is not an object raises
    [AttributeError] and an object whose "response" is not a string raises
    [TypeError]; the text gathered so far is not returned. *)
Theorem fatal_line_aborts prompt pre line rest fragments e out :
  (status_code (post prompt) < 400 \/ 600 <= status_code (post prompt))%Z ->
  iter_lines (post prompt) = pre ++ line :: rest ->
  stream_view pre fragments false ->
  fatal line e ->
  query_ollama_stream json_loads post prompt out = (Raise e, out).
Proof.
  intros Hstatus Hlines Hpre Hfatal.
  rewrite query_ok_status, Hlines by done.
  rewrite (read_lines_prefix _ _ _ _ Hpre eq_refl).
  by apply read_lines_fatal.
Qed.


(** X10. The answer depends on nothing in a record but its "response" and
    the truth value of its "done": with two decoders whose results differ
    only in other keys, or in which non-object value they give, the call
    ends the same way. *)
Theorem other_keys_ignored (json_loads' : str -> option pyval) prompt out :
  (forall data, alike (json_loads data) (json_loads' data)) ->
  query_ollama_stream json_loads post prompt out
  = query_ollama_stream json_loads' post prompt out.
Proof.
  intros Halike. unfold query_ollama_stream, bind, raise_for_status.
  destruct (_ && _)%Z; [done|]. simpl.
  generalize (@nil N) as acc. generalize (iter_lines (post prompt)) as lines.
  induction lines as [|l lines IH]; intros acc; simpl; [done|].
  destruct (nonempty l); [|apply IH].
  unfold bind, decode. destruct (utf8_decode l) as [data|]; [|done]. simpl.
  specialize (Halike data). unfold alike in Halike.
  destruct (json_loads data) as [chunk|], (json_loads' data) as [chunk'|].
  2: by destruct chunk.
  2: done.
  2: apply IH.
  destruct chunk as [| | | | | |d], chunk' as [| | | | | |d']; simpl;
    try done; try (destruct Halike as [H1 H2]; by (destruct (H1 d) || destruct (H2 d'))).
  destruct Halike as [Hresponse Hdone]. rewrite Hresponse.
  destruct (default (PStr []) (d' !! lit "response")); simpl; try done.
  rewrite Hdone. destruct (truthy (default (PBool false) (d' !! lit "done"))); [done|apply IH].
Qed.

End StreamMore.

(** X8 at a reply cut short by a stray byte. *)
Lemma fatal_line_aborts_witness :
  Ollama.query_ollama_stream Samples.sample_loads MoreSamples.cut_post (lit "hello") []
  = (Raise UnicodeDecodeError, []).
Proof.
  apply (fatal_line_aborts Samples.sample_loads MoreSamples.cut_post (lit "hello")
           [Samples.line_hi; []; Samples.line_truncated] [255] [] [lit "Hi"]
           UnicodeDecodeError [] (or_introl eq_refl) eq_refl sample_prefix_view).
  by apply fatal_undecodable.
Defined.

(** ** The voice assistant script *)

Section ScriptFacts.

Import Ollama Script.
Context (sd_rec : Z -> Z -> list Z) (transcribe : list Z -> str).
Context (json_loads : str -> option pyval) (post : str -> response).

(** X11. One run of the script: five seconds at 16 kHz are recorded, the
    transcript is the prompt of the query, and the answer that is printed is
    the text that is spoken.  When the query raises, the exception ends the
    script after the line "Generating LLaMA 3 response...": no answer is
    printed and nothing is spoken. *)
Theorem main_outcome s :
  main sd_rec transcribe json_loads post s =
    match fst (query_ollama_stream json_loads post (transcribe (sd_rec 80000 16000)) []) with
    | Ok answer =>
        (Ok tt,
         Stage (printed s ++ [lit "Recording for 5 seconds..."; lit "Recording complete.";
                              lit "Transcribing speech...";
                              lit "You said: " ++ transcribe (sd_rec 80000 16000);
                              lit "Generating LLaMA 3 response...";
                              lit "Ollama says: " ++ answer])
               (spoken s ++ [answer]))
    | Raise e =>
        (Raise e,
         Stage (printed s ++ [lit "Recording for 5 seconds..."; lit "Recording complete.";
                              lit "Transcribing speech...";
                              lit "You said: " ++ transcribe (sd_rec 80000 16000);
                              lit "Generating LLaMA 3 response..."])
               (spoken s))
    end.
Proof.
  unfold main, record_audio, speech_to_text, bind, print, ret, on_console, speak_text.
  cbn [printed spoken].
  change (5 * 16000)%Z with 80000%Z.
  change (lit "Recording for " ++ str_of_int 5 ++ lit " seconds...")
    with (lit "Recording for 5 seconds...").
  rewrite (query_console json_loads post _ _ []).
  destruct (fst _) as [answer|e]; cbn [printed spoken]; by rewrite <- !app_assoc.
Qed.

End ScriptFacts.

Lemma verbose_loads_alike data :
  alike (Samples.sample_loads data) (MoreSamples.verbose_loads data).
Proof.
  unfold MoreSamples.verbose_loads, Samples.sample_loads.
  repeat case_bool_decide; simpl; try done; split; reflexivity.
Qed.

(** X10 at the sample reply, read with and without the model's name in its
    records. *)
Lemma other_keys_ignored_witness :
  Ollama.query_ollama_stream MoreSamples.verbose_loads Samples.sample_post (lit "hello") []
  = (Ok (lit "Hi!"), []).
Proof.
  rewrite <- (other_keys_ignored Samples.sample_loads Samples.sample_post
                MoreSamples.verbose_loads (lit "hello") [] verbose_loads_alike).
  reflexivity.
Defined.
